(** * Quest tracker: the completion engine and its point ledger

    A shallow embedding of the storage layer of the quest tracker
    ([server/routes.ts], class [DatabaseStorage], and the tables of
    [shared/schema.ts]) together with the properties of its
    complete / cancel / archive / undo operations.

    Modelling conventions.
    - The database is a record of tables.  [quests] and [questGroups] are
      keyed by their primary key, [questProgress] by [questId] (the table
      carries a UNIQUE constraint on that column), and [profile] is the
      single row read by [select().from(profile).limit(1)].
    - Integer columns are unbounded [Z]; every numeric column of [profile]
      and [quest_progress] has a DEFAULT and is only ever written with a
      number, so it is not modelled as nullable.  The reward columns of
      [quests] are nullable and the code guards them ([|| 0], [&&]), so
      they are [option Z].
    - The [attributes] JSON object is a finite map from attribute name to
      number; reading a key is [(attrs as any)[k] || 0].
    - [new Date()] is an explicit argument [now] (milliseconds).
    - A storage method is a computation over the database that returns
      the database it leaves behind together with a value or the error it
      throws; [transaction] restores the database when its body throws.
    - A [sql] fragment is the SQL text with every interpolated column
      spelled out and every interpolated value bound as a parameter,
      evaluated on the row being updated.  The [jsonb_set] fragment of
      [cancelQuestCompletion] has its two values inside string literals
      (['{$1}'], ['$2'::jsonb]): the store rejects the UPDATE that
      carries it (invalid input syntax for type json).
    - The database driver is the one of [server/db.ts]
      ([drizzle-orm/postgres-js]): what a DELETE resolves to has a
      [count] and no [rowCount].
    - Generated columns that no method reads ([id], [createdAt] of the
      progress and profile rows, the informational quest columns) are
      left out. *)

From Stdlib Require Import ZArith Lia.
From stdpp Require Import gmap strings list fin_maps.

Local Open Scope string_scope.
Local Open Scope Z_scope.

(** ** Tables of [shared/schema.ts] *)

Record Profile := mkProfile {
  level : Z;
  xp : Z;
  cumulativeXp : Z;
  availablePoints : Z;
  attributes : gmap string Z
}.

Record QuestGroup := mkQuestGroup {
  name : string;
  icon : string
}.

Record Quest := mkQuest {
  groupId : option string;
  title : string;
  xpReward : option Z;
  attributePointReward : option Z;
  targetAttribute : option string
}.

Record QuestProgress := mkQuestProgress {
  progress : Z;
  completed : bool;
  completedAt : option Z;
  isArchived : bool;
  archivedAt : option Z;
  archiveReason : option string;
  canUndo : bool
}.

Record Db := mkDb {
  profile : option Profile;
  questGroups : gmap string QuestGroup;
  quests : gmap string Quest;
  questProgress : gmap string QuestProgress
}.

Definition set_profile (p : option Profile) (db : Db) : Db :=
  mkDb p (questGroups db) (quests db) (questProgress db).

Definition set_questGroups (g : gmap string QuestGroup) (db : Db) : Db :=
  mkDb (profile db) g (quests db) (questProgress db).

Definition set_quests (q : gmap string Quest) (db : Db) : Db :=
  mkDb (profile db) (questGroups db) q (questProgress db).

Definition set_questProgress (r : gmap string QuestProgress) (db : Db) : Db :=
  mkDb (profile db) (questGroups db) (quests db) r.

(** ** Errors *)

(** The messages thrown by the storage methods, and the two errors the
    store itself raises: for a declared foreign key, and for a text that
    is not JSON where JSON is expected. *)
Inductive StorageError :=
| QuestNotFound                         (* 'Quest not found' *)
| QuestNotCompleted                     (* 'Quest not completed' *)
| QuestProgressNotFound                 (* 'Quest progress not found' *)
| QuestNotArchived                      (* 'Quest not archived' *)
| InvalidTargetAttribute (a : string)   (* 'Invalid target attribute: ...' *)
| ForeignKeyViolation
| InvalidTextRepresentation.

(** The error taxonomy of the operation contract; the routes answer 404
    for the first kind and 400 for the second. *)
Inductive ErrorKind := NotFound | InvalidState | StoreFailure.

Definition error_kind (e : StorageError) : ErrorKind :=
  match e with
  | QuestNotFound | QuestProgressNotFound => NotFound
  | QuestNotCompleted | QuestNotArchived => InvalidState
  | InvalidTargetAttribute _ | ForeignKeyViolation
  | InvalidTextRepresentation => StoreFailure
  end.

Inductive Result (A : Type) :=
| Ok (a : A)
| Err (e : StorageError).
Arguments Ok {A} a.
Arguments Err {A} e.

(** ** The storage monad *)

Definition Store (A : Type) : Type := Db → Db * Result A.

Definition ret {A} (a : A) : Store A := λ db, (db, Ok a).

Definition throw {A} (e : StorageError) : Store A := λ db, (db, Err e).

Definition bind {A B} (m : Store A) (k : A → Store B) : Store B :=
  λ db, match m db with
        | (db1, Ok a) => k a db1
        | (db1, Err e) => (db1, Err e)
        end.

Notation "x <- m ;; k" := (bind m (λ x, k))
  (at level 100, m at next level, right associativity).

(** [db.transaction(async (tx) => ...)]: all or nothing. *)
Definition transaction {A} (body : Store A) : Store A :=
  λ db, match body db with
        | (db1, Ok a) => (db1, Ok a)
        | (_, Err e) => (db, Err e)
        end.

(** The database a call leaves behind, and what it returns. *)
Definition state_after {A} (r : Db * Result A) : Db := fst r.
Definition outcome {A} (r : Db * Result A) : Result A := snd r.

(** ** Statements *)

Definition selectProfile : Store (option Profile) :=
  λ db, (db, Ok (profile db)).

Definition selectQuest (id : string) : Store (option Quest) :=
  λ db, (db, Ok (quests db !! id)).

Definition selectProgress (questId : string) : Store (option QuestProgress) :=
  λ db, (db, Ok (questProgress db !! questId)).

(** [update(questProgress).set(...).where(questId = ..).returning()] *)
Definition updateProgress (questId : string) (f : QuestProgress → QuestProgress)
  : Store (option QuestProgress) :=
  λ db, match questProgress db !! questId with
        | Some r =>
            (set_questProgress (<[questId := f r]> (questProgress db)) db,
             Ok (Some (f r)))
        | None => (db, Ok None)
        end.

(** What a DELETE resolves to: the driver's result, which counts the
    rows removed in [count]. *)
Record DeleteResult := mkDeleteResult {
  count : Z
}.

(** [delete(questProgress).where(questId = ..)] *)
Definition deleteProgress (questId : string) : Store DeleteResult :=
  λ db, match questProgress db !! questId with
        | Some _ =>
            (set_questProgress (delete questId (questProgress db)) db,
             Ok (mkDeleteResult 1))
        | None => (db, Ok (mkDeleteResult 0))
        end.

(** [quest_progress.quest_id] references [quests.id] and [quests.group_id]
    references [quest_groups.id], neither with an ON DELETE action: a
    delete that would orphan a referencing row is refused. *)
Definition referenced_quest (db : Db) (id : string) : bool :=
  bool_decide (is_Some (questProgress db !! id)).

Definition referenced_group (db : Db) (id : string) : bool :=
  bool_decide (map_Exists (λ _ q, groupId q = Some id) (quests db)).

(** [delete(quests).where(groupId = id)] *)
Definition deleteQuestsOfGroup (id : string) : Store DeleteResult :=
  λ db,
    let doomed := filter (λ kq, groupId kq.2 = Some id) (quests db) in
    if bool_decide (map_Exists (λ k _, is_Some (questProgress db !! k)) doomed)
    then (db, Err ForeignKeyViolation)
    else (set_quests (filter (λ kq, groupId kq.2 ≠ Some id) (quests db)) db,
          Ok (mkDeleteResult (Z.of_nat (size doomed)))).

(** [delete(quests).where(id = id)] *)
Definition deleteQuestRow (id : string) : Store DeleteResult :=
  λ db, match quests db !! id with
        | Some _ =>
            if referenced_quest db id then (db, Err ForeignKeyViolation)
            else (set_quests (delete id (quests db)) db, Ok (mkDeleteResult 1))
        | None => (db, Ok (mkDeleteResult 0))
        end.

(** [delete(questGroups).where(id = id)] *)
Definition deleteGroupRow (id : string) : Store DeleteResult :=
  λ db, match questGroups db !! id with
        | Some _ =>
            if referenced_group db id then (db, Err ForeignKeyViolation)
            else (set_questGroups (delete id (questGroups db)) db,
                  Ok (mkDeleteResult 1))
        | None => (db, Ok (mkDeleteResult 0))
        end.

(** [result.rowCount]: the driver's result has no such property, so
    reading it gives [undefined]. *)
Definition rowCount (result : DeleteResult) : option Z := None.

(** [result.rowCount ? result.rowCount > 0 : false] *)
Definition rowsDeleted (result : DeleteResult) : bool :=
  match rowCount result with
  | Some n => if bool_decide (n = 0) then false else bool_decide (0 < n)
  | None => false
  end.

(** ** Profile ledger arithmetic *)

(** [Math.floor(xp / 800) + 1] *)
Definition levelForXp (x : Z) : Z := x / 800 + 1.
Arguments levelForXp : simpl never.

(** [(currentAttributes as any)[k] || 0] *)
Definition attributeValue (attrs : gmap string Z) (k : string) : Z :=
  default 0 (attrs !! k).

Definition allowedAttributes : list string :=
  ["physique"; "mental"; "success"; "social"; "skills"].

Definition allowed (a : string) : bool := bool_decide (a ∈ allowedAttributes).

(** Truthiness of [quest.targetAttribute]: null and the empty string are
    both falsy. *)
Definition targetOf (q : Quest) : option string :=
  match targetAttribute q with
  | Some a => if bool_decide (a = "") then None else Some a
  | None => None
  end.

(** [quest.xpReward || 0] *)
Definition xpOf (q : Quest) : Z := default 0 (xpReward q).

(** [quest.attributePointReward && quest.attributePointReward > 0]; the
    reward when the guard holds. *)
Definition pointsOf (q : Quest) : option Z :=
  match attributePointReward q with
  | Some r => if bool_decide (0 < r) then Some r else None
  | None => None
  end.

(** The [updates] object handed to [tx.update(profile).set(updates)]; an
    absent key leaves its column alone. *)
Record Updates := mkUpdates {
  u_xp : option Z;
  u_level : option Z;
  u_cumulativeXp : option Z;
  u_availablePoints : option Z;
  u_attributes : option (gmap string Z)
}.

Definition applyUpdates (u : Updates) (p : Profile) : Profile :=
  {| level := default (level p) (u_level u);
     xp := default (xp p) (u_xp u);
     cumulativeXp := default (cumulativeXp p) (u_cumulativeXp u);
     availablePoints := default (availablePoints p) (u_availablePoints u);
     attributes := default (attributes p) (u_attributes u) |}.

Definition updateProfileRow (u : Updates) : Store () :=
  λ db, (set_profile (applyUpdates u <$> profile db) db, Ok ()).

(** The profile of [getProfile] when the table is empty; [cumulativeXp]
    takes its column default. *)
Definition defaultProfile : Profile :=
  {| level := 1; xp := 0; cumulativeXp := 0; availablePoints := 0;
     attributes := <["physique" := 10]> (<["mental" := 10]> (<["success" := 10]>
                   (<["social" := 10]> (<["skills" := 10]> ∅)))) |}.

Definition getProfile : Store Profile :=
  λ db, match profile db with
        | Some p => (db, Ok p)
        | None => (set_profile (Some defaultProfile) db, Ok defaultProfile)
        end.

(** ** Quest catalogue *)

Definition getQuest (id : string) : Store (option Quest) := selectQuest id.

Definition getQuestProgress (questId : string) : Store (option QuestProgress) :=
  selectProgress questId.

Definition deleteQuest (id : string) : Store bool :=
  _ <- deleteProgress id ;;
  result <- deleteQuestRow id ;;
  ret (rowsDeleted result).

Definition deleteQuestGroup (id : string) : Store bool :=
  _ <- deleteQuestsOfGroup id ;;
  result <- deleteGroupRow id ;;
  ret (rowsDeleted result).

(** ** Completion engine *)

(** The row left by [insert ... onConflictDoUpdate] in [completeQuest]:
    a fresh row when there is none, the CASE WHEN update otherwise. *)
Definition completionRow (now : Z) (old : option QuestProgress) : QuestProgress :=
  match old with
  | None =>
      {| progress := 1; completed := true; completedAt := Some now;
         isArchived := false; archivedAt := None; archiveReason := None;
         canUndo := true |}
  | Some r =>
      {| progress := if completed r then progress r else progress r + 1;
         completed := if completed r then completed r else true;
         completedAt := if completed r then completedAt r else Some now;
         isArchived := isArchived r; archivedAt := archivedAt r;
         archiveReason := archiveReason r; canUndo := canUndo r |}
  end.

(** [completedAt = <timestamp of this call>]; NULL compares falsy. *)
Definition wasJustCompleted (now : Z) (r : QuestProgress) : bool :=
  bool_decide (completedAt r = Some now).

(** What the upsert returns, and [completeQuest] with it: the columns
    named in [.returning({...})], without the archive columns, and the
    computed [wasJustCompleted]. *)
Module Returned.
Record t := mk {
  questId : string;
  progress : Z;
  completed : bool;
  completedAt : option Z;
  wasJustCompleted : bool
}.
End Returned.

Definition returning (questId : string) (now : Z) (r : QuestProgress) : Returned.t :=
  {| Returned.questId := questId;
     Returned.progress := progress r;
     Returned.completed := completed r;
     Returned.completedAt := completedAt r;
     Returned.wasJustCompleted := wasJustCompleted now r |}.

Definition upsertCompletion (questId : string) (now : Z) : Store Returned.t :=
  λ db,
    let r := completionRow now (questProgress db !! questId) in
    (set_questProgress (<[questId := r]> (questProgress db)) db,
     Ok (returning questId now r)).

(** The [updates] built by [completeQuest]. *)
Definition completionUpdates (quest : Quest) (cur : Profile) : Result Updates :=
  let currentXP := xp cur in
  let newXP := currentXP + xpOf quest in
  let currentLevel := levelForXp currentXP in
  let newLevel := levelForXp newXP in
  let levelIncrease := newLevel - currentLevel in
  let newCumulativeXP := cumulativeXp cur + xpOf quest in
  let updates :=
    {| u_xp := Some (xp cur + xpOf quest);
       u_level := Some newLevel;
       u_cumulativeXp := Some newCumulativeXP;
       u_availablePoints := None;
       u_attributes := None |} in
  let awarded :=
    match pointsOf quest with
    | Some r =>
        match targetOf quest with
        | Some a =>
            if allowed a then
              let newAttributeValue := Z.min 100 (attributeValue (attributes cur) a + r) in
              Ok (mkUpdates (u_xp updates) (u_level updates) (u_cumulativeXp updates)
                    (u_availablePoints updates)
                    (Some (<[a := newAttributeValue]> (attributes cur))))
            else Err (InvalidTargetAttribute a)
        | None =>
            Ok (mkUpdates (u_xp updates) (u_level updates) (u_cumulativeXp updates)
                  (Some (availablePoints cur + r)) (u_attributes updates))
        end
    | None => Ok updates
    end in
  match awarded with
  | Ok updates =>
      if bool_decide (0 < levelIncrease) then
        let additionalPoints :=
          match u_availablePoints updates with
          | Some pts => pts + levelIncrease
          | None => availablePoints cur + levelIncrease
          end in
        Ok (mkUpdates (u_xp updates) (u_level updates) (u_cumulativeXp updates)
              (Some additionalPoints) (u_attributes updates))
      else Ok updates
  | Err e => Err e
  end.

Definition lift {A} (r : Result A) : Store A := λ db, (db, r).

Definition completeQuest (now : Z) (questId : string) : Store Returned.t :=
  quest <- getQuest questId ;;
  match quest with
  | None => throw QuestNotFound
  | Some quest =>
      transaction (
        progressResult <- upsertCompletion questId now ;;
        if Returned.completed progressResult
           && Returned.wasJustCompleted progressResult then
          currentProfile <- selectProfile ;;
          match currentProfile with
          | Some cur =>
              updates <- lift (completionUpdates quest cur) ;;
              _ <- updateProfileRow updates ;;
              ret progressResult
          | None => ret progressResult
          end
        else ret progressResult)
  end.

(** The [updates] built by [cancelQuestCompletion].  For a quest that
    pays points to a target attribute, [updates.attributes] is the raw
    fragment
    [jsonb_set(${profile.attributes}, '{${target}}', '${newValue}'::jsonb)];
    the UPDATE made of such updates is rejected by the store, which is
    the error given here. *)
Definition cancellationUpdates (quest : Quest) (cur : Profile) : Result Updates :=
  let currentXP := xp cur in
  let newXP := Z.max 0 (currentXP - xpOf quest) in
  let currentLevel := levelForXp currentXP in
  let newLevel := levelForXp newXP in
  let levelDecrease := currentLevel - newLevel in
  let updates :=
    {| u_xp := Some (Z.max 0 newXP);
       u_level := Some newLevel;
       u_cumulativeXp := None;
       u_availablePoints := None;
       u_attributes := None |} in
  let rolledBack :=
    match pointsOf quest with
    | Some r =>
        match targetOf quest with
        | Some a => Err InvalidTextRepresentation
        | None =>
            Ok (mkUpdates (u_xp updates) (u_level updates) (u_cumulativeXp updates)
                  (Some (availablePoints cur - r)) (u_attributes updates))
        end
    | None => Ok updates
    end in
  match rolledBack with
  | Ok updates =>
      if bool_decide (0 < levelDecrease) then
        let pointsToRemove :=
          match u_availablePoints updates with
          | Some pts => pts - levelDecrease
          | None => availablePoints cur - levelDecrease
          end in
        Ok (mkUpdates (u_xp updates) (u_level updates) (u_cumulativeXp updates)
              (Some (Z.max 0 pointsToRemove)) (u_attributes updates))
      else Ok updates
  | Err e => Err e
  end.

Definition resetCompletion (r : QuestProgress) : QuestProgress :=
  {| progress := 0; completed := false; completedAt := None;
     isArchived := isArchived r; archivedAt := archivedAt r;
     archiveReason := archiveReason r; canUndo := canUndo r |}.

(** The methods that destructure [.returning()] of an UPDATE hand back
    [undefined] when no row matched: their value is an [option]. *)
Definition cancelQuestCompletion (questId : string) : Store (option QuestProgress) :=
  quest <- getQuest questId ;;
  match quest with
  | None => throw QuestNotFound
  | Some quest =>
      existingProgress <- getQuestProgress questId ;;
      match existingProgress with
      | None => throw QuestNotCompleted
      | Some existing =>
          if negb (completed existing) then throw QuestNotCompleted
          else
            transaction (
              progressResult <- updateProgress questId resetCompletion ;;
              currentProfile <- selectProfile ;;
              match currentProfile with
              | Some cur =>
                  updates <- lift (cancellationUpdates quest cur) ;;
                  _ <- updateProfileRow updates ;;
                  ret progressResult
              | None => ret progressResult
              end)
      end
  end.

Definition archiveQuest (now : Z) (questId : string) (reason : string)
  : Store (option QuestProgress) :=
  existingProgress <- getQuestProgress questId ;;
  match existingProgress with
  | None => throw QuestProgressNotFound
  | Some _ =>
      updateProgress questId (λ r,
        {| progress := progress r; completed := completed r;
           completedAt := completedAt r;
           isArchived := true; archivedAt := Some now;
           archiveReason := Some reason; canUndo := true |})
  end.

Definition restoreQuestFromArchive (questId : string) : Store QuestProgress :=
  restoredProgress <- updateProgress questId (λ r,
    {| progress := progress r; completed := completed r;
       completedAt := completedAt r;
       isArchived := false; archivedAt := None;
       archiveReason := None; canUndo := true |}) ;;
  match restoredProgress with
  | None => throw QuestProgressNotFound
  | Some r => ret r
  end.

(** [!existingProgress?.isArchived] holds for a missing row as well as
    for one that is not archived. *)
Definition deleteArchivedQuest (questId : string) : Store bool :=
  existingProgress <- getQuestProgress questId ;;
  if negb (default false (isArchived <$> existingProgress))
  then throw QuestNotArchived
  else
    result <- deleteProgress questId ;;
    ret (rowsDeleted result).

(** The [updates] built by [undoQuestCompletion]. *)
Definition undoUpdates (quest : Quest) (cur : Profile) : Result Updates :=
  let currentCumulativeXP := cumulativeXp cur in
  let newCumulativeXP := Z.max 0 (currentCumulativeXP - xpOf quest) in
  let updates :=
    {| u_xp := None; u_level := None;
       u_cumulativeXp := Some newCumulativeXP;
       u_availablePoints := None; u_attributes := None |} in
  match pointsOf quest with
  | Some r =>
      match targetOf quest with
      | Some a =>
          if allowed a then
            let newAttributeValue := Z.max 0 (attributeValue (attributes cur) a - r) in
            Ok (mkUpdates (u_xp updates) (u_level updates) (u_cumulativeXp updates)
                  (u_availablePoints updates)
                  (Some (<[a := newAttributeValue]> (attributes cur))))
          else Err (InvalidTargetAttribute a)
      | None =>
          let currentAvailable := availablePoints cur in
          Ok (mkUpdates (u_xp updates) (u_level updates) (u_cumulativeXp updates)
                (Some (Z.max 0 (currentAvailable - r))) (u_attributes updates))
      end
  | None => Ok updates
  end.

Definition resetAll (r : QuestProgress) : QuestProgress :=
  {| progress := 0; completed := false; completedAt := None;
     isArchived := false; archivedAt := None; archiveReason := None;
     canUndo := canUndo r |}.

Definition undoQuestCompletion (questId : string) : Store (option QuestProgress) :=
  quest <- getQuest questId ;;
  match quest with
  | None => throw QuestNotFound
  | Some quest =>
      existingProgress <- getQuestProgress questId ;;
      match existingProgress with
      | None => throw QuestNotCompleted
      | Some existing =>
          if negb (completed existing) then throw QuestNotCompleted
          else
            transaction (
              progressResult <- updateProgress questId resetAll ;;
              currentProfile <- selectProfile ;;
              match currentProfile with
              | Some cur =>
                  updates <- lift (undoUpdates quest cur) ;;
                  _ <- updateProfileRow updates ;;
                  ret progressResult
              | None => ret progressResult
              end)
      end
  end.

(** ** Calls and call sequences *)

Inductive Call :=
| CallComplete (now : Z) (questId : string)
| CallCancel (questId : string)
| CallArchive (now : Z) (questId : string) (reason : string)
| CallRestore (questId : string)
| CallDeleteArchived (questId : string)
| CallUndo (questId : string).

(** The database after one call, whatever the call returned. *)
Definition call (c : Call) (db : Db) : Db :=
  match c with
  | CallComplete now q => state_after (completeQuest now q db)
  | CallCancel q => state_after (cancelQuestCompletion q db)
  | CallArchive now q reason => state_after (archiveQuest now q reason db)
  | CallRestore q => state_after (restoreQuestFromArchive q db)
  | CallDeleteArchived q => state_after (deleteArchivedQuest q db)
  | CallUndo q => state_after (undoQuestCompletion q db)
  end.

Definition calls (cs : list Call) (db : Db) : Db :=
  foldl (λ d c, call c d) db cs.

(** The calls that touch the profile ledger. *)
Definition ledgerCall (c : Call) : bool :=
  match c with
  | CallComplete _ _ | CallCancel _ | CallUndo _ => true
  | _ => false
  end.

(** States of a quest in the completion state machine. *)
Definition inactive (db : Db) (questId : string) : Prop :=
  match questProgress db !! questId with
  | None => True
  | Some r => completed r = false
  end.

(** The value of the profile column [f], when there is a profile. *)
Definition column {A} (f : Profile → A) (db : Db) : option A :=
  f <$> profile db.

(** ** HTTP routes of the completion engine ([registerRoutes]) *)

(** The text of [error.message]; the routes compare it with [===].  The
    last two stand for the messages of the store's own errors, which are
    none of the texts a route looks for. *)
Definition message (e : StorageError) : string :=
  match e with
  | QuestNotFound => "Quest not found"
  | QuestNotCompleted => "Quest not completed"
  | QuestProgressNotFound => "Quest progress not found"
  | QuestNotArchived => "Quest not archived"
  | InvalidTargetAttribute a => "Invalid target attribute: " +:+ a
  | ForeignKeyViolation => "violates foreign key constraint"
  | InvalidTextRepresentation => "invalid input syntax for type json"
  end.

(** [res.json(a)] answers 200; [res.status(s).json({ message })] answers
    [s]. *)
Inductive Response (A : Type) :=
| Json (a : A)
| Failure (status : Z) (text : string).
Arguments Json {A} a.
Arguments Failure {A} status text.

Definition status {A} (r : Response A) : Z :=
  match r with
  | Json _ => 200
  | Failure s _ => s
  end.

Definition Handler (A : Type) : Type := Db → Db * Response A.

(** The database a request leaves behind, and its response. *)
Definition db_after {A} (r : Db * Response A) : Db := fst r.
Definition response {A} (r : Db * Response A) : Response A := snd r.

(** [POST /api/quests/:questId/complete] *)
Definition postQuestComplete (now : Z) (questId : string) : Handler Returned.t :=
  λ db, match completeQuest now questId db with
        | (db1, Ok completedQuest) => (db1, Json completedQuest)
        | (db1, Err error) =>
            if bool_decide (message error = "Quest not found")
            then (db1, Failure 404 "Quest not found")
            else (db1, Failure 500 "Failed to complete quest")
        end.

(** [POST /api/quests/:questId/cancel] *)
Definition postQuestCancel (questId : string) : Handler (option QuestProgress) :=
  λ db, match cancelQuestCompletion questId db with
        | (db1, Ok cancelledQuest) => (db1, Json cancelledQuest)
        | (db1, Err error) =>
            if bool_decide (message error = "Quest not found")
            then (db1, Failure 404 "Quest not found")
            else if bool_decide (message error = "Quest not completed")
            then (db1, Failure 400 "Quest is not completed yet")
            else (db1, Failure 500 "Failed to cancel quest completion")
        end.

(** [POST /api/quests/:questId/archive]; [reason] is the field of the
    request body, with its default when the body has none. *)
Definition postQuestArchive (now : Z) (questId : string) (reason : option string)
  : Handler (option QuestProgress) :=
  λ db, match archiveQuest now questId (default "Archived by user" reason) db with
        | (db1, Ok archivedQuest) => (db1, Json archivedQuest)
        | (db1, Err error) =>
            if bool_decide (message error = "Quest not found")
            then (db1, Failure 404 "Quest not found")
            else if bool_decide (message error = "Quest not completed")
            then (db1, Failure 400 "Quest is not completed yet")
            else (db1, Failure 500 "Failed to archive quest")
        end.

(** [DELETE /api/quests/:questId/archive]; answers [{ success: true }]
    whatever [deleteArchivedQuest] returned. *)
Definition deleteQuestArchive (questId : string) : Handler () :=
  λ db, match deleteArchivedQuest questId db with
        | (db1, Ok deleted) => (db1, Json ())
        | (db1, Err error) =>
            if bool_decide (message error = "Quest not found")
            then (db1, Failure 404 "Quest not found")
            else if bool_decide (message error = "Quest not archived")
            then (db1, Failure 400 "Quest is not archived")
            else (db1, Failure 500 "Failed to delete archived quest")
        end.

(** [POST /api/quests/:questId/undo] *)
Definition postQuestUndo (questId : string) : Handler (option QuestProgress) :=
  λ db, match undoQuestCompletion questId db with
        | (db1, Ok undoneQuest) => (db1, Json undoneQuest)
        | (db1, Err error) =>
            if bool_decide (message error = "Quest not found")
            then (db1, Failure 404 "Quest not found")
            else if bool_decide (message error = "Quest not completed")
            then (db1, Failure 400 "Quest is not completed yet")
            else (db1, Failure 500 "Failed to undo quest completion")
        end.

(** [DELETE /api/quest-groups/:id] *)
Definition deleteQuestGroupById (id : string) : Handler () :=
  λ db, match deleteQuestGroup id db with
        | (db1, Ok deleted) =>
            if negb deleted then (db1, Failure 404 "Quest group not found")
            else (db1, Json ())
        | (db1, Err error) => (db1, Failure 500 "Failed to delete quest group")
        end.

(** ** What the pages show ([archive.tsx], [quest-groups.tsx]) *)

(** The two lists of the archive page, filtered from the progress rows
    the server sent. *)
Definition getCompletedQuests (rows : list QuestProgress) : list QuestProgress :=
  List.filter (λ qp, completed qp && negb (isArchived qp)) rows.

Definition getArchivedQuests (rows : list QuestProgress) : list QuestProgress :=
  List.filter (λ qp, completed qp && isArchived qp) rows.

(** The status dot of a quest in its group: green when completed,
    pulsing when [progress > 0], muted otherwise.  [currentProgress] is
    the row found for the quest, if any. *)
Inductive Dot := DotGreen | DotPulse | DotMuted.

Definition questDot (currentProgress : option QuestProgress) : Dot :=
  let progress := default 0 (progress <$> currentProgress) in
  let isCompleted := default false (completed <$> currentProgress) in
  if isCompleted then DotGreen
  else if bool_decide (0 < progress) then DotPulse
  else DotMuted.

(** ** Derived quantities and invariants *)

(** The points a quest pays into [availablePoints]: its attribute reward
    when it names no target attribute. *)
Definition genericPoints (quest : Quest) : Z :=
  match pointsOf quest, targetOf quest with
  | Some r, None => r
  | _, _ => 0
  end.

(** Whether a completion of the quest pays points to a target
    attribute. *)
Definition paysTarget (quest : Quest) : bool :=
  match pointsOf quest, targetOf quest with
  | Some _, Some _ => true
  | _, _ => false
  end.

(** The attributes after moving the targeted attribute through [f]. *)
Definition retarget (quest : Quest) (f : Z → Z → Z) (attrs : gmap string Z)
  : gmap string Z :=
  match pointsOf quest, targetOf quest with
  | Some r, Some a => <[a := f (attributeValue attrs a) r]> attrs
  | _, _ => attrs
  end.

(** In every row, [completed = false] comes with [progress = 0]. *)
Definition restingRows (m : gmap string QuestProgress) : Prop :=
  ∀ q r, m !! q = Some r → completed r = false → progress r = 0.

(** Generic points paid out for a row: those of its quest while the row
    is completed. *)
Definition due (cat : gmap string Quest) (q : string) (r : QuestProgress) : Z :=
  if completed r then from_option genericPoints 0 (cat !! q) else 0.

(** Generic points paid out for all completed rows together. *)
Definition owed (cat : gmap string Quest) (m : gmap string QuestProgress) : Z :=
  map_fold (λ q r acc, acc + due cat q r) 0 m.

(** The data model asks for XP rewards that are not negative. *)
Definition rewardsNonNegative (cat : gmap string Quest) : Prop :=
  ∀ q quest, cat !! q = Some quest → 0 ≤ xpOf quest.

Record ledgerSound (db : Db) (p : Profile) : Prop := {
  sound_profile : profile db = Some p;
  sound_xp : 0 ≤ xp p;
  sound_cumulative : 0 ≤ cumulativeXp p;
  sound_points :
    levelForXp (xp p) - 1 + owed (quests db) (questProgress db)
      ≤ availablePoints p;
  sound_attributes : ∀ k v, attributes p !! k = Some v → 0 ≤ v ≤ 100;
  sound_keys : ∀ k, k ∈ allowedAttributes → is_Some (attributes p !! k)
}.

(** The row [archiveQuest] writes over [r], and the one
    [restoreQuestFromArchive] writes. *)
Definition archivedRow (now : Z) (reason : string) (r : QuestProgress) : QuestProgress :=
  {| progress := progress r; completed := completed r;
     completedAt := completedAt r;
     isArchived := true; archivedAt := Some now;
     archiveReason := Some reason; canUndo := true |}.

Definition restoredRow (r : QuestProgress) : QuestProgress :=
  {| progress := progress r; completed := completed r;
     completedAt := completedAt r;
     isArchived := false; archivedAt := None;
     archiveReason := None; canUndo := true |}.

(** The quest a call is about. *)
Definition questOf (c : Call) : string :=
  match c with
  | CallComplete _ q | CallCancel q | CallArchive _ q _ | CallRestore q
  | CallDeleteArchived q | CallUndo q => q
  end.

(** The stored [level] is the one computed from the stored [xp]. *)
Definition levelDerived (db : Db) : Prop :=
  ∀ p, profile db = Some p → level p = levelForXp (xp p).

(** ** Fixtures used by the concrete scenarios *)

Definition emptyDb : Db := mkDb None ∅ ∅ ∅.

(** The quest of the level-curve scenario: 100 XP and 5 points to
    [mental]. *)
Definition mentalQuest : Quest :=
  mkQuest (Some "g") "read a chapter" (Some 100) (Some 5) (Some "mental").

(** A quest that pays 800 XP and 3 generic points. *)
Definition genericQuest : Quest :=
  mkQuest (Some "g") "long run" (Some 800) (Some 3) None.

Definition catalogue : gmap string Quest :=
  <["q" := mentalQuest]> (<["r" := genericQuest]> ∅).

Definition groups : gmap string QuestGroup :=
  <["g" := mkQuestGroup "daily" "calendar"]> ∅.

Definition freshDb : Db := mkDb (Some defaultProfile) groups catalogue ∅.

Definition withMental (v : Z) (p : Profile) : Profile :=
  mkProfile (level p) (xp p) (cumulativeXp p) (availablePoints p)
    (<["mental" := v]> (attributes p)).

(** A profile whose [mental] attribute is 98, two points below the cap. *)
Definition cappedDb : Db :=
  mkDb (Some (withMental 98 defaultProfile)) groups catalogue ∅.

(** A quest whose target attribute is outside the whitelist. *)
Definition strayQuest : Quest :=
  mkQuest (Some "g") "juggle" (Some 50) (Some 2) (Some "luck").

Definition strayDb : Db :=
  mkDb (Some defaultProfile) groups (<["s" := strayQuest]> catalogue) ∅.

(** The catalogue before any profile row exists. *)
Definition unprofiledDb : Db := mkDb None groups catalogue ∅.

(** A quest whose XP reward is negative. *)
Definition penaltyQuest : Quest :=
  mkQuest (Some "g") "skip a day" (Some (-50)) None None.

Definition penaltyDb : Db :=
  mkDb (Some defaultProfile) groups (<["d" := penaltyQuest]> catalogue) ∅.

(** ** Reasoning about storage computations *)

Ltac unfold_store :=
  unfold completeQuest, cancelQuestCompletion, undoQuestCompletion,
    archiveQuest, restoreQuestFromArchive, deleteArchivedQuest,
    deleteQuest, deleteQuestGroup, getQuest, getQuestProgress,
    selectQuest, selectProgress, selectProfile, upsertCompletion,
    updateProgress, deleteProgress, updateProfileRow, lift,
    transaction, bind, ret, throw, state_after, outcome, column in *.

Lemma db_eta (db : Db) :
  mkDb (profile db) (questGroups db) (quests db) (questProgress db) = db.
Proof. by destruct db. Qed.

Lemma set_questProgress_id (db : Db) : set_questProgress (questProgress db) db = db.
Proof. apply db_eta. Qed.

(** A repeated [completeQuest] whose clock reading differs from the
    stored [completedAt] changes nothing. *)
Lemma completeQuest_completed_later (now : Z) (q : string) (db : Db) (r : QuestProgress) :
  is_Some (quests db !! q) →
  questProgress db !! q = Some r →
  completed r = true →
  completedAt r ≠ Some now →
  completeQuest now q db = (db, Ok (returning q now r)).
Proof.
  intros [quest Hq] Hr Hc Ht.
  assert (Hrow : completionRow now (Some r) = r).
  { destruct r; simpl in *. by subst. }
  unfold_store. rewrite Hq. cbn [fst snd]. rewrite Hr, Hrow.
  cbn [returning Returned.completed Returned.wasJustCompleted].
  unfold wasJustCompleted. rewrite Hc.
  rewrite bool_decide_eq_false_2 by done. cbn [andb].
  rewrite insert_id by done.
  by rewrite set_questProgress_id.
Qed.

(** Case analysis on the guards of the goal: the reward, the target
    attribute, the whitelist and the level comparisons. *)
Ltac ledger_cases :=
  repeat match goal with
    | |- context [pointsOf ?q] => destruct (pointsOf q) eqn:?
    | |- context [targetOf ?q] => destruct (targetOf q) eqn:?
    | |- context [allowed ?a] => destruct (allowed a) eqn:?
    | |- context [bool_decide ?P] => destruct (bool_decide_reflect P)
    end; cbn [u_xp u_level u_cumulativeXp u_availablePoints u_attributes
              level xp cumulativeXp availablePoints attributes
              default from_option id].

Ltac goal_decide :=
  match goal with
  | |- context [bool_decide ?P] => destruct (bool_decide_reflect P)
  end.

Lemma cancellationUpdates_cumulativeXp (quest : Quest) (p : Profile) (u : Updates) :
  cancellationUpdates quest p = Ok u →
  cumulativeXp (applyUpdates u p) = cumulativeXp p.
Proof.
  unfold cancellationUpdates, applyUpdates.
  ledger_cases; intros H; by simplify_eq.
Qed.

Lemma undoUpdates_frame (quest : Quest) (p : Profile) (u : Updates) :
  undoUpdates quest p = Ok u →
  xp (applyUpdates u p) = xp p ∧ level (applyUpdates u p) = level p.
Proof.
  unfold undoUpdates, applyUpdates.
  ledger_cases; intros H; by simplify_eq.
Qed.

(** *** One call on a quest in a known state *)

Lemma completionRow_inactive (now : Z) (old : option QuestProgress) :
  match old with Some r => completed r = false | None => True end →
  completed (completionRow now old) = true ∧
  wasJustCompleted now (completionRow now old) = true.
Proof.
  unfold wasJustCompleted. destruct old as [r|]; simpl.
  - intros ->. split; [done|]. by apply bool_decide_eq_true_2.
  - intros _. split; [done|]. by apply bool_decide_eq_true_2.
Qed.

Lemma completionRow_resting (now : Z) (old : option QuestProgress) :
  completed (completionRow now old) = true.
Proof. destruct old as [r|]; simpl; [by destruct (completed r)|done]. Qed.

(** Completing an inactive quest: the row is upserted and the profile,
    when there is one, is credited; a refused target attribute rolls the
    transaction back. *)
Lemma completeQuest_inactive (now : Z) (q : string) (quest : Quest) (db : Db) :
  quests db !! q = Some quest →
  inactive db q →
  completeQuest now q db =
    let row := completionRow now (questProgress db !! q) in
    let db1 := set_questProgress (<[q := row]> (questProgress db)) db in
    match profile db with
    | Some p =>
        match completionUpdates quest p with
        | Ok u => (set_profile (Some (applyUpdates u p)) db1,
                   Ok (returning q now row))
        | Err e => (db, Err e)
        end
    | None => (db1, Ok (returning q now row))
    end.
Proof.
  intros Hq Hin. unfold inactive in Hin.
  destruct (completionRow_inactive now (questProgress db !! q) Hin) as [Hc Hw].
  unfold_store. rewrite Hq. simpl. rewrite Hc, Hw. simpl.
  destruct (profile db) as [p|] eqn:Hp; simpl; [|done].
  destruct (completionUpdates quest p); simpl; [|done].
  by rewrite Hp.
Qed.

(** Cancelling a completed quest. *)
Lemma cancelQuestCompletion_completed (q : string) (quest : Quest) (r : QuestProgress) (db : Db) :
  quests db !! q = Some quest →
  questProgress db !! q = Some r →
  completed r = true →
  cancelQuestCompletion q db =
    let db1 := set_questProgress (<[q := resetCompletion r]> (questProgress db)) db in
    match profile db with
    | Some p =>
        match cancellationUpdates quest p with
        | Ok u => (set_profile (Some (applyUpdates u p)) db1,
                   Ok (Some (resetCompletion r)))
        | Err e => (db, Err e)
        end
    | None => (db1, Ok (Some (resetCompletion r)))
    end.
Proof.
  intros Hq Hr Hc. unfold_store. rewrite Hq. simpl. rewrite Hr. simpl.
  rewrite Hc. simpl. rewrite Hr. simpl.
  destruct (profile db) as [p|] eqn:Hp; simpl; [|done].
  destruct (cancellationUpdates quest p); simpl; [|done].
  by rewrite Hp.
Qed.

(** Undoing a completed quest. *)
Lemma undoQuestCompletion_completed (q : string) (quest : Quest) (r : QuestProgress) (db : Db) :
  quests db !! q = Some quest →
  questProgress db !! q = Some r →
  completed r = true →
  undoQuestCompletion q db =
    let db1 := set_questProgress (<[q := resetAll r]> (questProgress db)) db in
    match profile db with
    | Some p =>
        match undoUpdates quest p with
        | Ok u => (set_profile (Some (applyUpdates u p)) db1, Ok (Some (resetAll r)))
        | Err e => (db, Err e)
        end
    | None => (db1, Ok (Some (resetAll r)))
    end.
Proof.
  intros Hq Hr Hc. unfold_store. rewrite Hq. simpl. rewrite Hr. simpl.
  rewrite Hc. simpl. rewrite Hr. simpl.
  destruct (profile db) as [p|] eqn:Hp; simpl; [|done].
  destruct (undoUpdates quest p); simpl; [|done].
  by rewrite Hp.
Qed.

(** *** What each ledger update does to the profile *)

Lemma completionUpdates_effect (quest : Quest) (p : Profile) (u : Updates) :
  completionUpdates quest p = Ok u →
  let p1 := applyUpdates u p in
  let gained := levelForXp (xp p + xpOf quest) - levelForXp (xp p) in
  xp p1 = xp p + xpOf quest ∧
  level p1 = levelForXp (xp p + xpOf quest) ∧
  cumulativeXp p1 = cumulativeXp p + xpOf quest ∧
  availablePoints p1 = availablePoints p + genericPoints quest + Z.max 0 gained ∧
  attributes p1 = retarget quest (λ v r, Z.min 100 (v + r)) (attributes p).
Proof.
  unfold completionUpdates, applyUpdates, genericPoints, retarget.
  ledger_cases; intros H; simplify_eq; cbn;
    repeat split; try done; lia.
Qed.

Lemma completionUpdates_refused (quest : Quest) (p : Profile) (e : StorageError) :
  completionUpdates quest p = Err e →
  ∃ a r, targetOf quest = Some a ∧ pointsOf quest = Some r ∧ allowed a = false.
Proof.
  unfold completionUpdates. ledger_cases; intros H; simplify_eq; eauto.
Qed.

Lemma cancellationUpdates_effect (quest : Quest) (p : Profile) (u : Updates) :
  cancellationUpdates quest p = Ok u →
  let p2 := applyUpdates u p in
  let newXP := Z.max 0 (xp p - xpOf quest) in
  let lost := levelForXp (xp p) - levelForXp newXP in
  xp p2 = newXP ∧
  level p2 = levelForXp newXP ∧
  cumulativeXp p2 = cumulativeXp p ∧
  availablePoints p2 =
    (if bool_decide (0 < lost)
     then Z.max 0 (availablePoints p - genericPoints quest - lost)
     else availablePoints p - genericPoints quest) ∧
  attributes p2 = attributes p.
Proof.
  unfold cancellationUpdates, applyUpdates, genericPoints.
  ledger_cases; intros H; simplify_eq; cbn; repeat split; try done; lia.
Qed.

(** The UPDATE of [cancelQuestCompletion] is rejected exactly for the
    quests that pay points to a target attribute. *)
Lemma cancellationUpdates_rejected (quest : Quest) (p : Profile) :
  paysTarget quest = true →
  cancellationUpdates quest p = Err InvalidTextRepresentation.
Proof.
  unfold paysTarget, cancellationUpdates.
  destruct (pointsOf quest); [|done]. by destruct (targetOf quest).
Qed.

Lemma cancellationUpdates_accepted (quest : Quest) (p : Profile) :
  paysTarget quest = false → ∃ u, cancellationUpdates quest p = Ok u.
Proof.
  unfold paysTarget, cancellationUpdates.
  destruct (pointsOf quest); [destruct (targetOf quest); [done|]|];
    intros _; goal_decide; eauto.
Qed.

Lemma cancellationUpdates_error (quest : Quest) (p : Profile) (e : StorageError) :
  cancellationUpdates quest p = Err e →
  paysTarget quest = true ∧ e = InvalidTextRepresentation.
Proof.
  destruct (paysTarget quest) eqn:Hpay.
  - rewrite cancellationUpdates_rejected by done. by intros [= <-].
  - destruct (cancellationUpdates_accepted quest p Hpay) as [u ->]. done.
Qed.

Lemma undoUpdates_effect (quest : Quest) (p : Profile) (u : Updates) :
  undoUpdates quest p = Ok u →
  let p2 := applyUpdates u p in
  xp p2 = xp p ∧
  level p2 = level p ∧
  cumulativeXp p2 = Z.max 0 (cumulativeXp p - xpOf quest) ∧
  availablePoints p2 =
    (if bool_decide (genericPoints quest = 0) then availablePoints p
     else Z.max 0 (availablePoints p - genericPoints quest)) ∧
  attributes p2 = retarget quest (λ v r, Z.max 0 (v - r)) (attributes p).
Proof.
  unfold undoUpdates, applyUpdates, genericPoints, retarget. intros H.
  unfold pointsOf in *.
  destruct (attributePointReward quest) as [r|]; simpl in *;
    [destruct (bool_decide (0 < r)) eqn:Hr; simpl in *|];
    try destruct (targetOf quest) as [a|]; simpl in *;
    try destruct (allowed a); simplify_eq; simpl; repeat split; try done.
  apply bool_decide_eq_true_1 in Hr.
  rewrite bool_decide_eq_false_2 by lia. done.
Qed.

Lemma undoUpdates_refused (quest : Quest) (p : Profile) (e : StorageError) :
  undoUpdates quest p = Err e →
  ∃ a r, targetOf quest = Some a ∧ pointsOf quest = Some r ∧ allowed a = false.
Proof.
  unfold undoUpdates. ledger_cases; intros H; simplify_eq; eauto.
Qed.

(** *** Complete followed by a rollback *)

Lemma completionUpdates_allowed (quest : Quest) (p : Profile) :
  (∀ a, targetOf quest = Some a → allowed a = true) →
  ∃ u, completionUpdates quest p = Ok u.
Proof.
  intros Hal. destruct (completionUpdates quest p) as [u|e] eqn:Hu; [eauto|].
  destruct (completionUpdates_refused _ _ _ Hu) as (a & r & Ha & _ & Hno).
  rewrite (Hal a Ha) in Hno. done.
Qed.

Lemma undoUpdates_allowed (quest : Quest) (p : Profile) :
  (∀ a, targetOf quest = Some a → allowed a = true) →
  ∃ u, undoUpdates quest p = Ok u.
Proof.
  intros Hal. destruct (undoUpdates quest p) as [u|e] eqn:Hu; [eauto|].
  destruct (undoUpdates_refused _ _ _ Hu) as (a & r & Ha & _ & Hno).
  rewrite (Hal a Ha) in Hno. done.
Qed.

Section CompleteThenRollback.
Variables (now : Z) (q : string) (quest : Quest) (p : Profile) (db : Db).
Hypothesis Hquest : quests db !! q = Some quest.
Hypothesis Hprofile : profile db = Some p.
Hypothesis Hinactive : inactive db q.
Hypothesis Hallowed : ∀ a, targetOf quest = Some a → allowed a = true.

Lemma complete_step :
  ∃ u db1,
    completionUpdates quest p = Ok u ∧
    completeQuest now q db
      = (db1, Ok (returning q now (completionRow now (questProgress db !! q)))) ∧
    profile db1 = Some (applyUpdates u p) ∧
    quests db1 = quests db ∧
    questProgress db1
      = <[q := completionRow now (questProgress db !! q)]> (questProgress db).
Proof.
  destruct (completionUpdates_allowed quest p Hallowed) as [u Hu].
  exists u. eexists. split; [done|].
  rewrite (completeQuest_inactive now q quest db Hquest Hinactive).
  cbn zeta. rewrite Hprofile, Hu. done.
Qed.

Lemma complete_cancel_steps :
  paysTarget quest = false →
  ∃ u u' db1 db2,
    completionUpdates quest p = Ok u ∧
    completeQuest now q db
      = (db1, Ok (returning q now (completionRow now (questProgress db !! q)))) ∧
    profile db1 = Some (applyUpdates u p) ∧
    cancellationUpdates quest (applyUpdates u p) = Ok u' ∧
    cancelQuestCompletion q db1
      = (db2, Ok (Some (resetCompletion (completionRow now (questProgress db !! q))))) ∧
    profile db2 = Some (applyUpdates u' (applyUpdates u p)).
Proof.
  intros Hpay.
  destruct complete_step as (u & db1 & Hu & Hc & Hp1 & Hq1 & Hr1).
  destruct (cancellationUpdates_accepted quest (applyUpdates u p) Hpay)
    as [u' Hu'].
  exists u, u', db1. eexists. repeat split; try done.
  - rewrite (cancelQuestCompletion_completed q quest
               (completionRow now (questProgress db !! q))).
    + cbn zeta. rewrite Hp1, Hu'. done.
    + by rewrite Hq1.
    + rewrite Hr1. apply lookup_insert_eq.
    + by apply completionRow_inactive.
  - done.
Qed.

(** For a quest that pays points to a target attribute the Cancel that
    follows a Complete is rejected and leaves what Complete left. *)
Lemma complete_cancel_rejected :
  paysTarget quest = true →
  ∃ u db1,
    completionUpdates quest p = Ok u ∧
    completeQuest now q db
      = (db1, Ok (returning q now (completionRow now (questProgress db !! q)))) ∧
    profile db1 = Some (applyUpdates u p) ∧
    questProgress db1 !! q = Some (completionRow now (questProgress db !! q)) ∧
    cancelQuestCompletion q db1 = (db1, Err InvalidTextRepresentation).
Proof.
  intros Hpay.
  destruct complete_step as (u & db1 & Hu & Hc & Hp1 & Hq1 & Hr1).
  exists u, db1. repeat split; try done.
  - rewrite Hr1. apply lookup_insert_eq.
  - rewrite (cancelQuestCompletion_completed q quest
               (completionRow now (questProgress db !! q))).
    + cbn zeta. rewrite Hp1. by rewrite cancellationUpdates_rejected.
    + by rewrite Hq1.
    + rewrite Hr1. apply lookup_insert_eq.
    + by apply completionRow_inactive.
Qed.

Lemma complete_undo_steps :
  ∃ u u' db1 db2,
    completionUpdates quest p = Ok u ∧
    completeQuest now q db
      = (db1, Ok (returning q now (completionRow now (questProgress db !! q)))) ∧
    profile db1 = Some (applyUpdates u p) ∧
    undoUpdates quest (applyUpdates u p) = Ok u' ∧
    undoQuestCompletion q db1
      = (db2, Ok (Some (resetAll (completionRow now (questProgress db !! q))))) ∧
    profile db2 = Some (applyUpdates u' (applyUpdates u p)).
Proof.
  destruct complete_step as (u & db1 & Hu & Hc & Hp1 & Hq1 & Hr1).
  destruct (undoUpdates_allowed quest (applyUpdates u p) Hallowed) as [u' Hu'].
  exists u, u', db1. eexists. repeat split; try done.
  - rewrite (undoQuestCompletion_completed q quest
               (completionRow now (questProgress db !! q))).
    + cbn zeta. rewrite Hp1, Hu'. done.
    + by rewrite Hq1.
    + rewrite Hr1. apply lookup_insert_eq.
    + by apply completionRow_inactive.
  - done.
Qed.
End CompleteThenRollback.

Lemma attributeValue_insert (attrs : gmap string Z) (a k : string) (v : Z) :
  attributeValue (<[a := v]> attrs) k
    = if bool_decide (a = k) then v else attributeValue attrs k.
Proof.
  unfold attributeValue. case_bool_decide.
  - subst. by rewrite lookup_insert_eq.
  - by rewrite lookup_insert_ne.
Qed.

(** *** Repeated completion and cascading deletes *)

Lemma completionRow_stamp (now : Z) (old : option QuestProgress) :
  match old with Some r => completed r = false | None => True end →
  completedAt (completionRow now old) = Some now.
Proof.
  intros Hin.
  destruct (completionRow_inactive now old Hin) as [_ Hw].
  unfold wasJustCompleted in Hw. by apply bool_decide_eq_true_1 in Hw.
Qed.

(** Completing an inactive quest twice, at two different instants,
    leaves the database as the first call did. *)
Lemma complete_twice_clock_advanced (t1 t2 : Z) (q : string) (db : Db) :
  t1 ≠ t2 →
  inactive db q →
  calls [CallComplete t1 q; CallComplete t2 q] db = calls [CallComplete t1 q] db.
Proof.
  intros Ht Hin. unfold calls, call. simpl.
  destruct (quests db !! q) as [quest|] eqn:Hq.
  - rewrite (completeQuest_inactive t1 q quest db Hq Hin). cbn zeta.
    set (row := completionRow t1 (questProgress db !! q)).
    assert (Hstamp : completedAt row ≠ Some t2).
    { unfold row. rewrite completionRow_stamp by done. congruence. }
    assert (Hdone : completed row = true) by apply completionRow_resting.
    destruct (profile db) as [p|] eqn:Hp.
    + destruct (completionUpdates quest p) as [u|e] eqn:Hu.
      * unfold state_after at 2. cbn [fst].
        rewrite (completeQuest_completed_later t2 q _ row);
          [done|cbn; rewrite Hq; eauto|apply lookup_insert_eq|done|done].
      * unfold state_after at 2. cbn [fst].
        rewrite (completeQuest_inactive t2 q quest db Hq Hin). cbn zeta.
        rewrite Hp. rewrite Hu. done.
    + unfold state_after at 2. cbn [fst].
      rewrite (completeQuest_completed_later t2 q _ row);
        [done|cbn; rewrite Hq; eauto|apply lookup_insert_eq|done|done].
  - unfold_store. rewrite Hq. simpl. by rewrite Hq.
Qed.

(** [deleteQuestGroup] never writes to the progress table. *)
Lemma deleteQuestGroup_keeps_progress (g : string) (db : Db) :
  questProgress (state_after (deleteQuestGroup g db)) = questProgress db.
Proof.
  unfold deleteQuestGroup, bind, deleteQuestsOfGroup, deleteGroupRow, ret,
    state_after.
  case_bool_decide; [done|]. cbn [questGroups set_quests].
  destruct (questGroups db !! g); [|done].
  by destruct (referenced_group _ g).
Qed.

(** When no quest of the group has a progress row, [deleteQuestGroup]
    removes the group and its quests, and looking any of them up finds
    nothing. *)
Lemma deleteQuestGroup_without_progress (g : string) (db : Db) :
  (∀ k quest, quests db !! k = Some quest → groupId quest = Some g →
              questProgress db !! k = None) →
  ∃ b db',
    deleteQuestGroup g db = (db', Ok b) ∧
    questGroups db' = delete g (questGroups db) ∧
    quests db' = filter (λ kq, groupId kq.2 ≠ Some g) (quests db) ∧
    questProgress db' = questProgress db ∧
    profile db' = profile db ∧
    ∀ k quest, quests db !! k = Some quest → groupId quest = Some g →
               outcome (getQuest k db') = Ok None.
Proof.
  intros Hfree.
  assert (Hlook : ∀ k quest, quests db !! k = Some quest →
            groupId quest = Some g →
            filter (λ kq : string * Quest, groupId kq.2 ≠ Some g) (quests db) !! k
              = None).
  { intros k quest Hk Hg. apply map_lookup_filter_None. right.
    intros quest' Hk' Hne. simpl in Hne. congruence. }
  unfold deleteQuestGroup, bind, deleteQuestsOfGroup.
  rewrite bool_decide_eq_false_2; last first.
  { intros (k & quest & Hl & Hs). apply map_lookup_filter_Some in Hl as [Hl Hg].
    simpl in Hg. rewrite (Hfree k quest Hl Hg) in Hs. by inversion Hs. }
  unfold deleteGroupRow. cbn [questGroups set_quests].
  destruct (questGroups db !! g) as [grp|] eqn:Hgrp.
  - unfold referenced_group. cbn [quests set_quests].
    rewrite bool_decide_eq_false_2; last first.
    { intros (k & quest & Hl & Hg). apply map_lookup_filter_Some in Hl as [_ Hne].
      simpl in Hne. done. }
    do 2 eexists. split; [reflexivity|]. cbn.
    repeat split; try done.
    intros k quest Hk Hg'. unfold outcome, getQuest, selectQuest. cbn.
    by rewrite (Hlook k quest Hk Hg').
  - do 2 eexists. split; [reflexivity|]. cbn.
    repeat split; try done.
    + by rewrite delete_id.
    + intros k quest Hk Hg'. unfold outcome, getQuest, selectQuest. cbn.
      by rewrite (Hlook k quest Hk Hg').
Qed.

(** *** The progress rows a call can leave behind *)

Lemma restingRows_insert (m : gmap string QuestProgress) (q : string) (r : QuestProgress) :
  restingRows m → (completed r = false → progress r = 0) →
  restingRows (<[q := r]> m).
Proof.
  intros Hm Hr k r'. rewrite lookup_insert. case_decide.
  - intros [= <-]. exact Hr.
  - apply Hm.
Qed.

Lemma restingRows_delete (m : gmap string QuestProgress) (q : string) :
  restingRows m → restingRows (delete q m).
Proof.
  intros Hm k r'. rewrite lookup_delete. case_decide; [done|]. apply Hm.
Qed.

Lemma progress_after_complete (now : Z) (q : string) (db : Db) :
  questProgress (state_after (completeQuest now q db)) = questProgress db ∨
  questProgress (state_after (completeQuest now q db))
    = <[q := completionRow now (questProgress db !! q)]> (questProgress db).
Proof.
  unfold_store. destruct (quests db !! q) as [quest|]; simpl; [|by left].
  destruct (completed _ && wasJustCompleted _ _); simpl; [|by right].
  destruct (profile db) as [p|]; simpl; [|by right].
  destruct (completionUpdates quest p); simpl; [by right|by left].
Qed.

Lemma progress_after_cancel (q : string) (db : Db) :
  questProgress (state_after (cancelQuestCompletion q db)) = questProgress db ∨
  ∃ r, questProgress db !! q = Some r ∧
    questProgress (state_after (cancelQuestCompletion q db))
      = <[q := resetCompletion r]> (questProgress db).
Proof.
  unfold_store. destruct (quests db !! q) as [quest|]; simpl; [|by left].
  destruct (questProgress db !! q) as [r|] eqn:Hr; simpl; [|by left].
  destruct (completed r); simpl; [|by left].
  rewrite Hr. simpl.
  destruct (profile db) as [cur|]; simpl;
    [destruct (cancellationUpdates quest cur); simpl; [|by left]|];
    right; by exists r.
Qed.

Lemma progress_after_undo (q : string) (db : Db) :
  questProgress (state_after (undoQuestCompletion q db)) = questProgress db ∨
  ∃ r, questProgress db !! q = Some r ∧
    questProgress (state_after (undoQuestCompletion q db))
      = <[q := resetAll r]> (questProgress db).
Proof.
  unfold_store. destruct (quests db !! q) as [quest|]; simpl; [|by left].
  destruct (questProgress db !! q) as [r|] eqn:Hr; simpl; [|by left].
  destruct (completed r); simpl; [|by left].
  rewrite Hr. simpl.
  destruct (profile db) as [p|]; simpl; [|right; by exists r].
  destruct (undoUpdates quest p); simpl; [right; by exists r|by left].
Qed.

Lemma call_restingRows (c : Call) (db : Db) :
  restingRows (questProgress db) → restingRows (questProgress (call c db)).
Proof.
  intros Hm. destruct c as [now q|q|now q reason|q|q|q]; simpl.
  - destruct (progress_after_complete now q db) as [->| ->]; [done|].
    apply restingRows_insert; [done|]. by rewrite completionRow_resting.
  - destruct (progress_after_cancel q db) as [->|(r & _ & ->)]; [done|].
    by apply restingRows_insert.
  - unfold_store. destruct (questProgress db !! q) as [r|] eqn:Hr; simpl; [|done].
    rewrite Hr. simpl. apply restingRows_insert; [done|]. simpl. by apply (Hm q).
  - unfold_store. destruct (questProgress db !! q) as [r|] eqn:Hr; simpl; [|done].
    apply restingRows_insert; [done|]. simpl. by apply (Hm q).
  - unfold_store. destruct (questProgress db !! q) as [r|] eqn:Hr; simpl; [|done].
    destruct (isArchived r); simpl; [|done]. rewrite Hr. simpl.
    by apply restingRows_delete.
  - destruct (progress_after_undo q db) as [->|(r & _ & ->)]; [done|].
    by apply restingRows_insert.
Qed.

Lemma calls_restingRows (cs : list Call) (db : Db) :
  restingRows (questProgress db) → restingRows (questProgress (calls cs db)).
Proof.
  revert db. induction cs as [|c cs IH]; intros db Hm; [done|].
  simpl. apply IH. by apply call_restingRows.
Qed.

(** *** The ledger invariant *)

Lemma pointsOf_pos (quest : Quest) (r : Z) : pointsOf quest = Some r → 0 < r.
Proof.
  unfold pointsOf. destruct (attributePointReward quest) as [z|]; [|done].
  case_bool_decide; [|done]. by intros [= <-].
Qed.

Lemma genericPoints_nonneg (quest : Quest) : 0 ≤ genericPoints quest.
Proof.
  unfold genericPoints. destruct (pointsOf quest) as [r|] eqn:Hr; [|done].
  apply pointsOf_pos in Hr. destruct (targetOf quest); lia.
Qed.

Lemma due_nonneg (cat : gmap string Quest) (q : string) (r : QuestProgress) :
  0 ≤ due cat q r.
Proof.
  unfold due. destruct (completed r); [|done].
  destruct (cat !! q) as [quest|]; simpl; [apply genericPoints_nonneg|done].
Qed.

Lemma owed_insert_fresh (cat : gmap string Quest) (m : gmap string QuestProgress)
    (q : string) (r : QuestProgress) :
  m !! q = None → owed cat (<[q := r]> m) = owed cat m + due cat q r.
Proof.
  intros Hq. unfold owed.
  rewrite map_fold_insert_L; [done| |done].
  intros. lia.
Qed.

Lemma owed_insert (cat : gmap string Quest) (m : gmap string QuestProgress)
    (q : string) (r : QuestProgress) :
  owed cat (<[q := r]> m)
    = owed cat m - from_option (due cat q) 0 (m !! q) + due cat q r.
Proof.
  destruct (m !! q) as [old|] eqn:Hq; simpl.
  - rewrite <- (insert_delete_id m q old Hq) at 2.
    rewrite <- insert_delete_eq.
    rewrite !owed_insert_fresh by apply lookup_delete_eq. lia.
  - rewrite owed_insert_fresh by done. lia.
Qed.

Lemma owed_nonneg (cat : gmap string Quest) (m : gmap string QuestProgress) :
  0 ≤ owed cat m.
Proof.
  induction m as [|q r m Hq IH] using map_ind.
  - unfold owed. by rewrite map_fold_empty.
  - rewrite owed_insert_fresh by done. pose proof (due_nonneg cat q r). lia.
Qed.

Lemma levelForXp_mono (a b : Z) : a ≤ b → levelForXp a ≤ levelForXp b.
Proof.
  intros Hab. unfold levelForXp.
  pose proof (Z.div_le_mono a b 800 ltac:(lia) Hab). lia.
Qed.

Lemma levelForXp_pos (a : Z) : 0 ≤ a → 1 ≤ levelForXp a.
Proof.
  intros Ha. unfold levelForXp.
  pose proof (Z.div_pos a 800 Ha ltac:(lia)). lia.
Qed.

Lemma attributeValue_range (attrs : gmap string Z) (k : string) :
  (∀ j v, attrs !! j = Some v → 0 ≤ v ≤ 100) →
  0 ≤ attributeValue attrs k ≤ 100.
Proof.
  intros Hr. unfold attributeValue.
  destruct (attrs !! k) as [v|] eqn:Hk; simpl; [by apply (Hr k)|lia].
Qed.

(** Moving the targeted attribute through a function that stays within
    [0, 100] keeps every attribute there and drops no key. *)
Lemma retarget_sound (quest : Quest) (f : Z → Z → Z) (attrs : gmap string Z) :
  (∀ v r, 0 ≤ v ≤ 100 → 0 < r → 0 ≤ f v r ≤ 100) →
  (∀ j v, attrs !! j = Some v → 0 ≤ v ≤ 100) →
  (∀ k, k ∈ allowedAttributes → is_Some (attrs !! k)) →
  (∀ j v, retarget quest f attrs !! j = Some v → 0 ≤ v ≤ 100) ∧
  (∀ k, k ∈ allowedAttributes → is_Some (retarget quest f attrs !! k)).
Proof.
  intros Hf Hr Hk. unfold retarget.
  destruct (pointsOf quest) as [r|] eqn:Hp; [|done].
  destruct (targetOf quest) as [a|]; [|done].
  apply pointsOf_pos in Hp. split.
  - intros j v. rewrite lookup_insert. case_decide; [|apply Hr].
    intros [= <-]. apply Hf; [|done]. by apply attributeValue_range.
  - intros k Hin. rewrite lookup_insert. case_decide; [done|]. by apply Hk.
Qed.

Lemma retarget_unpaid (quest : Quest) (f : Z → Z → Z) (attrs : gmap string Z) :
  paysTarget quest = false → retarget quest f attrs = attrs.
Proof.
  unfold paysTarget, retarget.
  destruct (pointsOf quest); [|done]. by destruct (targetOf quest).
Qed.

(** [completeQuest] on a known quest, in full: the row is upserted, and
    the profile is credited when the row carries the timestamp of the
    call. *)
Lemma completeQuest_known (now : Z) (q : string) (quest : Quest) (db : Db) :
  quests db !! q = Some quest →
  completeQuest now q db =
    let row := completionRow now (questProgress db !! q) in
    let db1 := set_questProgress (<[q := row]> (questProgress db)) db in
    if wasJustCompleted now row then
      match profile db with
      | Some p =>
          match completionUpdates quest p with
          | Ok u =>
              (set_profile (Some (applyUpdates u p)) db1, Ok (returning q now row))
          | Err e => (db, Err e)
          end
      | None => (db1, Ok (returning q now row))
      end
    else (db1, Ok (returning q now row)).
Proof.
  intros Hq. unfold_store. rewrite Hq. simpl.
  rewrite completionRow_resting. simpl.
  destruct (wasJustCompleted _ _); simpl; [|done].
  destruct (profile db) as [p|] eqn:Hp; simpl; [|done].
  destruct (completionUpdates quest p); simpl; [|done].
  by rewrite Hp.
Qed.

(** A repeated [completeQuest] that carries the stored [completedAt] as
    its own timestamp leaves the row alone and credits the profile once
    more. *)
Lemma completeQuest_completed_same_instant (now : Z) (q : string) (quest : Quest)
    (r : QuestProgress) (p : Profile) (u : Updates) (db : Db) :
  quests db !! q = Some quest →
  questProgress db !! q = Some r →
  completed r = true →
  completedAt r = Some now →
  profile db = Some p →
  completionUpdates quest p = Ok u →
  completeQuest now q db
    = (set_profile (Some (applyUpdates u p)) db, Ok (returning q now r)).
Proof.
  intros Hq Hr Hc Ht Hp Hu.
  rewrite (completeQuest_known now q quest db Hq). cbn zeta.
  rewrite Hr. unfold wasJustCompleted.
  assert (Hrow : completionRow now (Some r) = r).
  { destruct r; simpl in *. by subst. }
  rewrite Hrow, bool_decide_eq_true_2 by done.
  rewrite Hp, Hu. rewrite insert_id by done.
  by rewrite set_questProgress_id.
Qed.

Lemma completionRow_not_just (now : Z) (old : option QuestProgress) :
  wasJustCompleted now (completionRow now old) = false →
  ∃ r, old = Some r ∧ completed r = true.
Proof.
  intros Hw. destruct old as [r|].
  - destruct (completed r) eqn:Hc; [by exists r|].
    destruct (completionRow_inactive now (Some r) Hc) as [_ Hj]. congruence.
  - destruct (completionRow_inactive now None I) as [_ Hj]. congruence.
Qed.

Lemma due_completionRow (cat : gmap string Quest) (now : Z) (q : string)
    (quest : Quest) (old : option QuestProgress) :
  cat !! q = Some quest →
  due cat q (completionRow now old) = genericPoints quest.
Proof.
  intros Hq. unfold due. rewrite completionRow_resting, Hq. done.
Qed.

Section LedgerSteps.
Variables (db : Db) (p : Profile).
Hypothesis Hrewards : rewardsNonNegative (quests db).
Hypothesis Hsound : ledgerSound db p.

Lemma completeQuest_sound (now : Z) (q : string) :
  ∃ p', ledgerSound (state_after (completeQuest now q db)) p' ∧
        quests (state_after (completeQuest now q db)) = quests db.
Proof.
  destruct Hsound as [Hp Hx Hc Hpts Hat Hk].
  destruct (quests db !! q) as [quest|] eqn:Hq;
    [|exists p; unfold_store; rewrite Hq; done].
  rewrite (completeQuest_known now q quest db Hq). cbn zeta.
  set (row := completionRow now (questProgress db !! q)).
  pose proof (owed_insert (quests db) (questProgress db) q row) as Hins.
  unfold row in Hins at 2. rewrite (due_completionRow _ _ _ quest) in Hins by done.
  pose proof (genericPoints_nonneg quest) as Hg.
  destruct (wasJustCompleted now row) eqn:Hw.
  - rewrite Hp. destruct (completionUpdates quest p) as [u|e] eqn:Hu;
      [|by exists p].
    exists (applyUpdates u p). split; [|done].
    destruct (completionUpdates_effect _ _ _ Hu) as (Hx1 & Hl1 & Hc1 & Ha1 & Ht1).
    pose proof (Hrewards q quest Hq) as Hxq.
    destruct (retarget_sound quest (λ v r, Z.min 100 (v + r)) (attributes p))
      as [Hat' Hk']; [intros; lia|done|done|].
    constructor; unfold state_after; cbn [fst profile quests questProgress
      set_profile set_questProgress].
    + done.
    + lia.
    + lia.
    + rewrite Hx1, Ha1, Hins.
      assert (0 ≤ from_option (due (quests db) q) 0 (questProgress db !! q)).
      { destruct (questProgress db !! q); simpl; [apply due_nonneg|done]. }
      lia.
    + by rewrite Ht1.
    + by rewrite Ht1.
  - exists p. split; [|done].
    apply completionRow_not_just in Hw as (r & Hr & Hcr).
    constructor; unfold state_after; cbn [fst profile quests questProgress
      set_profile set_questProgress]; try done.
    rewrite Hins, Hr. simpl. unfold due at 1. rewrite Hcr, Hq. simpl. lia.
Qed.

Lemma cancelQuestCompletion_sound (q : string) :
  ∃ p', ledgerSound (state_after (cancelQuestCompletion q db)) p' ∧
        quests (state_after (cancelQuestCompletion q db)) = quests db.
Proof.
  destruct Hsound as [Hp Hx Hc Hpts Hat Hk].
  destruct (quests db !! q) as [quest|] eqn:Hq;
    [|exists p; unfold_store; rewrite Hq; done].
  destruct (questProgress db !! q) as [r|] eqn:Hr;
    [|exists p; unfold_store; rewrite Hq; simpl; rewrite Hr; done].
  destruct (completed r) eqn:Hcr;
    [|exists p; unfold_store; rewrite Hq; simpl; rewrite Hr; simpl;
      rewrite Hcr; done].
  rewrite (cancelQuestCompletion_completed q quest r db Hq Hr Hcr). cbn zeta.
  rewrite Hp. destruct (cancellationUpdates quest p) as [u|e] eqn:Hu;
    [|by exists p].
  exists (applyUpdates u p). split; [|done].
  destruct (cancellationUpdates_effect _ _ _ Hu) as (Hx2 & Hl2 & Hc2 & Ha2 & Ht2).
  pose proof (Hrewards q quest Hq) as Hxq.
  pose proof (genericPoints_nonneg quest) as Hg.
  pose proof (owed_insert (quests db) (questProgress db) q (resetCompletion r))
    as Hins.
  rewrite Hr in Hins. simpl in Hins. unfold due in Hins. simpl in Hins.
  rewrite Hcr, Hq in Hins. simpl in Hins.
  pose proof (levelForXp_mono (Z.max 0 (xp p - xpOf quest)) (xp p) ltac:(lia)).
  constructor; unfold state_after; cbn [fst profile quests questProgress
    set_profile set_questProgress fmap option_fmap option_map].
  - done.
  - lia.
  - lia.
  - rewrite Hx2, Ha2, Hins. goal_decide; lia.
  - by rewrite Ht2.
  - by rewrite Ht2.
Qed.

Lemma undoQuestCompletion_sound (q : string) :
  ∃ p', ledgerSound (state_after (undoQuestCompletion q db)) p' ∧
        quests (state_after (undoQuestCompletion q db)) = quests db.
Proof.
  destruct Hsound as [Hp Hx Hc Hpts Hat Hk].
  destruct (quests db !! q) as [quest|] eqn:Hq;
    [|exists p; unfold_store; rewrite Hq; done].
  destruct (questProgress db !! q) as [r|] eqn:Hr;
    [|exists p; unfold_store; rewrite Hq; simpl; rewrite Hr; done].
  destruct (completed r) eqn:Hcr;
    [|exists p; unfold_store; rewrite Hq; simpl; rewrite Hr; simpl;
      rewrite Hcr; done].
  rewrite (undoQuestCompletion_completed q quest r db Hq Hr Hcr). cbn zeta.
  rewrite Hp. destruct (undoUpdates quest p) as [u|e] eqn:Hu; [|by exists p].
  exists (applyUpdates u p). split; [|done].
  destruct (undoUpdates_effect _ _ _ Hu) as (Hx2 & Hl2 & Hc2 & Ha2 & Ht2).
  pose proof (genericPoints_nonneg quest) as Hg.
  pose proof (owed_insert (quests db) (questProgress db) q (resetAll r)) as Hins.
  rewrite Hr in Hins. simpl in Hins. unfold due in Hins. simpl in Hins.
  rewrite Hcr, Hq in Hins. simpl in Hins.
  destruct (retarget_sound quest (λ v r, Z.max 0 (v - r)) (attributes p))
    as [Hat' Hk']; [intros; lia|done|done|].
  constructor; unfold state_after; cbn [fst profile quests questProgress
    set_profile set_questProgress].
  - done.
  - lia.
  - lia.
  - rewrite Hx2, Ha2, Hins. goal_decide; lia.
  - by rewrite Ht2.
  - by rewrite Ht2.
Qed.
End LedgerSteps.

Lemma defaultProfile_sound (db : Db) :
  profile db = Some defaultProfile →
  questProgress db = ∅ →
  ledgerSound db defaultProfile.
Proof.
  intros Hp Hm. constructor; try done.
  - rewrite Hm. unfold owed. rewrite map_fold_empty. by vm_compute.
  - intros k v. unfold defaultProfile. cbn [attributes].
    rewrite !lookup_insert, lookup_empty.
    repeat case_decide; intros; simplify_eq; lia.
  - intros k Hk. unfold allowedAttributes in Hk.
    repeat (apply elem_of_cons in Hk as [->|Hk]; [by eexists|]).
    by apply elem_of_nil in Hk.
Qed.

Lemma ledger_calls_sound (cs : list Call) (db : Db) (p : Profile) :
  rewardsNonNegative (quests db) →
  ledgerSound db p →
  Forall (λ c, ledgerCall c = true) cs →
  ∃ p', ledgerSound (calls cs db) p'.
Proof.
  revert db p. induction cs as [|c cs IH]; intros db p Hnn Hs Hall; [by exists p|].
  apply Forall_cons in Hall as [Hc Hall].
  assert (∃ p', ledgerSound (call c db) p' ∧ quests (call c db) = quests db)
    as (p' & Hs' & Hq').
  { destruct c; try discriminate Hc; simpl.
    - by apply (completeQuest_sound db p).
    - by apply (cancelQuestCompletion_sound db p).
    - by apply (undoQuestCompletion_sound db p). }
  simpl. apply (IH (call c db) p'); [by rewrite Hq'|done|done].
Qed.

Lemma catalogue_rewards : rewardsNonNegative catalogue.
Proof.
  intros q quest. unfold catalogue.
  rewrite !lookup_insert, lookup_empty.
  repeat case_decide; intros; simplify_eq; by vm_compute.
Qed.

(** ** Theorems *)

(** C1. Complete is meant to be idempotent, and it is whenever the clock
    has moved since the stored completion ([completeQuest_completed_later]).
    The repeat call is recognised by comparing [completedAt] with the
    timestamp of the call, so a second call carrying the very timestamp
    of the first leaves the row alone and credits the profile again: the
    quest of 100 XP and 5 [mental] points is paid twice. *)
Theorem complete_twice_same_instant :
  let once := calls [CallComplete 5 "q"] freshDb in
  let twice := calls [CallComplete 5 "q"; CallComplete 5 "q"] freshDb in
  (completed <$> questProgress once !! "q") = Some true ∧
  questProgress twice = questProgress once ∧
  (column xp once = Some 100 ∧ column xp twice = Some 200) ∧
  (column cumulativeXp once = Some 100 ∧ column cumulativeXp twice = Some 200) ∧
  (column (λ p, attributeValue (attributes p) "mental") once = Some 15 ∧
   column (λ p, attributeValue (attributes p) "mental") twice = Some 20).
Proof. by vm_compute. Qed.

(** C2 (as amended). Start from the default profile and an empty
    progress table, with a catalogue whose XP rewards are not negative.
    After every finite sequence of Complete, Cancel and Undo calls each
    of the five attributes is present with a value in [0, 100], and
    [availablePoints], [xp] and [cumulativeXp] are not negative. *)
Theorem ledger_stays_in_range (cs : list Call) (db : Db) :
  profile db = Some defaultProfile →
  questProgress db = ∅ →
  rewardsNonNegative (quests db) →
  Forall (λ c, ledgerCall c = true) cs →
  ∃ p, profile (calls cs db) = Some p ∧
    (∀ k, k ∈ allowedAttributes →
          ∃ v, attributes p !! k = Some v ∧ 0 ≤ v ≤ 100) ∧
    0 ≤ availablePoints p ∧ 0 ≤ xp p ∧ 0 ≤ cumulativeXp p.
Proof.
  intros Hp Hm Hnn Hall.
  destruct (ledger_calls_sound cs db defaultProfile Hnn
              (defaultProfile_sound db Hp Hm) Hall) as [p [Hp' Hx Hc Hpts Hat Hk]].
  exists p. split; [done|]. split; [|split; [|done]].
  - intros k Hin. destruct (Hk k Hin) as [v Hv]. exists v. split; [done|].
    by apply (Hat k).
  - pose proof (levelForXp_pos (xp p) Hx).
    pose proof (owed_nonneg (quests (calls cs db)) (questProgress (calls cs db))).
    lia.
Qed.

Lemma ledger_stays_in_range_witness :
  ∃ p,
    profile (calls [CallComplete 5 "r"; CallComplete 6 "q"; CallCancel "r";
                    CallUndo "q"; CallUndo "r"] freshDb) = Some p ∧
    0 ≤ availablePoints p ∧ 0 ≤ xp p ∧ 0 ≤ cumulativeXp p.
Proof.
  destruct (ledger_stays_in_range
              [CallComplete 5 "r"; CallComplete 6 "q"; CallCancel "r";
               CallUndo "q"; CallUndo "r"] freshDb)
    as (p & Hp & _ & Hrest).
  - reflexivity.
  - reflexivity.
  - apply catalogue_rewards.
  - repeat constructor.
  - by exists p.
Defined.

(** C2 (as stated) fails without either proviso.  A completion recorded
    before the profile row exists credits nothing; once [getProfile] has
    created the default profile, cancelling it takes the 3 generic points
    of the quest from an [availablePoints] of 0.  And a quest whose XP
    reward is negative takes [xp] and [cumulativeXp] of the default
    profile below zero when it is completed. *)
Lemma ledger_leaves_range :
  (let start := state_after (getProfile (calls [CallComplete 5 "r"] unprofiledDb)) in
   profile start = Some defaultProfile ∧
   quests start = catalogue ∧ rewardsNonNegative catalogue ∧
   (completed <$> questProgress start !! "r") = Some true ∧
   column availablePoints (calls [CallCancel "r"] start) = Some (-3)) ∧
  (profile penaltyDb = Some defaultProfile ∧
   questProgress penaltyDb = ∅ ∧
   column xp (calls [CallComplete 5 "d"] penaltyDb) = Some (-50) ∧
   column cumulativeXp (calls [CallComplete 5 "d"] penaltyDb) = Some (-50) ∧
   column xp (calls [CallComplete 5 "d"; CallUndo "d"] penaltyDb) = Some (-50)).
Proof.
  split; [|by vm_compute].
  split; [by vm_compute|]. split; [by vm_compute|].
  split; [apply catalogue_rewards|by vm_compute].
Qed.

(** C3. Complete followed at once by Cancel, for an inactive quest and a
    profile within the data model ([xp] and [availablePoints] not
    negative, [level] derived from [xp]).  A quest that pays no points to
    a target attribute is rolled back as claimed: [xp], [level],
    [availablePoints] and the attributes are back at their values before
    Complete, and Cancel leaves [cumulativeXp] as Complete set it.  A
    quest that pays points to a target attribute is not rolled back at
    all: the UPDATE of Cancel is rejected by the database, the
    transaction is rolled back, the call throws, and the profile and the
    row stay as Complete left them. *)
Theorem complete_then_cancel
    (now : Z) (q : string) (quest : Quest) (p : Profile) (db : Db) :
  quests db !! q = Some quest →
  profile db = Some p →
  inactive db q →
  (∀ a, targetOf quest = Some a → allowed a = true) →
  0 ≤ xp p → level p = levelForXp (xp p) → 0 ≤ availablePoints p →
  ∃ db1 row p1,
    completeQuest now q db = (db1, Ok row) ∧ profile db1 = Some p1 ∧
    xp p1 = xp p + xpOf quest ∧
    (paysTarget quest = false →
     ∃ db2 row' p2,
       cancelQuestCompletion q db1 = (db2, Ok (Some row')) ∧
       profile db2 = Some p2 ∧
       xp p2 = xp p ∧ level p2 = level p ∧
       availablePoints p2 = availablePoints p ∧
       attributes p2 = attributes p ∧
       cumulativeXp p2 = cumulativeXp p1) ∧
    (paysTarget quest = true →
     cancelQuestCompletion q db1 = (db1, Err InvalidTextRepresentation) ∧
     (completed <$> questProgress db1 !! q) = Some true ∧
     ∀ a r, targetOf quest = Some a → pointsOf quest = Some r →
       attributeValue (attributes p1) a
         = Z.min 100 (attributeValue (attributes p) a + r)).
Proof.
  intros Hq Hp Hin Hal Hxp Hlevel Hav.
  destruct (complete_step now q quest p db Hq Hp Hin Hal)
    as (u & db1 & Hu & Hc & Hp1 & Hq1 & Hr1).
  destruct (completionUpdates_effect _ _ _ Hu) as (Hx1 & Hl1 & Hc1 & Ha1 & Ht1).
  exists db1. eexists. exists (applyUpdates u p).
  split; [exact Hc|]. split; [exact Hp1|]. split; [exact Hx1|]. split.
  - intros Hpay.
    destruct (complete_cancel_steps now q quest p db Hq Hp Hin Hal Hpay)
      as (u0 & u' & db1' & db2 & Hu0 & Hc' & _ & Hu' & Hx & Hp2).
    assert (u0 = u) as -> by congruence.
    assert (db1' = db1) as -> by congruence.
    do 2 eexists. exists (applyUpdates u' (applyUpdates u p)).
    split; [exact Hx|]. split; [exact Hp2|].
    destruct (cancellationUpdates_effect _ _ _ Hu')
      as (Hx2 & Hl2 & Hc2 & Ha2 & Ht2).
    rewrite Hx2, Hl2, Hc2, Ha2, Ht2, Hx1, Ha1, Ht1.
    replace (Z.max 0 (xp p + xpOf quest - xpOf quest)) with (xp p) by lia.
    rewrite Hlevel.
    split; [done|]. split; [done|]. split; [goal_decide; lia|].
    split; [by apply retarget_unpaid|done].
  - intros Hpay.
    destruct (complete_cancel_rejected now q quest p db Hq Hp Hin Hal Hpay)
      as (u0 & db1' & Hu0 & Hc' & _ & Hrow & Hx).
    assert (db1' = db1) as -> by congruence.
    split; [exact Hx|]. split.
    + rewrite Hrow. simpl. by rewrite completionRow_resting.
    + intros a r Ha Hr. rewrite Ht1. unfold retarget. rewrite Hr, Ha.
      by rewrite attributeValue_insert, bool_decide_eq_true_2.
Qed.

Lemma complete_then_cancel_witness :
  ∃ db1 p1,
    state_after (completeQuest 5 "q" freshDb) = db1 ∧
    profile db1 = Some p1 ∧ xp p1 = 100 ∧
    attributeValue (attributes p1) "mental" = 15 ∧
    (completed <$> questProgress db1 !! "q") = Some true ∧
    cancelQuestCompletion "q" db1 = (db1, Err InvalidTextRepresentation).
Proof.
  assert (Hal : ∀ a, targetOf mentalQuest = Some a → allowed a = true).
  { intros a [= <-]. reflexivity. }
  destruct (complete_then_cancel 5 "q" mentalQuest defaultProfile freshDb
              eq_refl eq_refl I Hal)
    as (db1 & row & p1 & Hc & Hp1 & Hx1 & _ & Hrej);
    [by vm_compute|reflexivity|by vm_compute|].
  destruct (Hrej eq_refl) as (Hx & Hrow & Hattr).
  exists db1, p1. unfold state_after. rewrite Hc.
  split; [done|]. split; [done|]. split; [exact Hx1|].
  split; [exact (Hattr "mental" 5 eq_refl eq_refl)|]. split; [exact Hrow|exact Hx].
Defined.

(** C4 (as amended). For an inactive quest and a profile whose
    [cumulativeXp] and [availablePoints] are not negative, Complete
    followed by Undo restores [cumulativeXp] exactly and leaves [xp] and
    [level] as Complete set them.  [availablePoints] ends at its value
    before Complete plus the levels Complete gained (the level bonus
    stays with the level), so it is restored exactly when Complete gained
    no level.  The targeted attribute ends at
    [max 0 (min 100 (v + r) - r)]: this is its value [v] before Complete
    exactly when [0 ≤ v] and either [v + r ≤ 100] (the credit was not
    capped) or [v = 0] and [100 ≤ r] (the credit was capped and the
    debit floored). *)
Theorem complete_then_undo
    (now : Z) (q : string) (quest : Quest) (p : Profile) (db : Db) :
  quests db !! q = Some quest →
  profile db = Some p →
  inactive db q →
  (∀ a, targetOf quest = Some a → allowed a = true) →
  0 ≤ cumulativeXp p → 0 ≤ availablePoints p →
  ∃ db1 db2 row row' p1 p2,
    completeQuest now q db = (db1, Ok row) ∧ profile db1 = Some p1 ∧
    undoQuestCompletion q db1 = (db2, Ok (Some row')) ∧ profile db2 = Some p2 ∧
    cumulativeXp p2 = cumulativeXp p ∧
    xp p2 = xp p1 ∧ level p2 = level p1 ∧
    (let gained := levelForXp (xp p + xpOf quest) - levelForXp (xp p) in
     availablePoints p2 = availablePoints p + Z.max 0 gained ∧
     (availablePoints p2 = availablePoints p ↔ gained ≤ 0)) ∧
    ∀ a r, targetOf quest = Some a → pointsOf quest = Some r →
      let v := attributeValue (attributes p) a in
      attributeValue (attributes p2) a = Z.max 0 (Z.min 100 (v + r) - r) ∧
      (attributeValue (attributes p2) a = v
       ↔ 0 ≤ v ∧ (v + r ≤ 100 ∨ v = 0 ∧ 100 ≤ r)).
Proof.
  intros Hq Hp Hin Hal Hcum Hav.
  destruct (complete_undo_steps now q quest p db Hq Hp Hin Hal)
    as (u & u' & db1 & db2 & Hu & Hc & Hp1 & Hu' & Hx & Hp2).
  do 4 eexists. exists (applyUpdates u p). eexists.
  split; [exact Hc|]. split; [exact Hp1|]. split; [exact Hx|]. split; [exact Hp2|].
  destruct (completionUpdates_effect _ _ _ Hu) as (Hx1 & Hl1 & Hc1 & Ha1 & Ht1).
  destruct (undoUpdates_effect _ _ _ Hu') as (Hx2 & Hl2 & Hc2 & Ha2 & Ht2).
  rewrite Hx2, Hl2, Hc2, Ha2, Ht2, Hc1, Ha1, Ht1.
  split; [lia|]. split; [done|]. split; [done|].
  split; [goal_decide; lia|].
  intros a r Ha Hr. pose proof (pointsOf_pos _ _ Hr).
  unfold retarget. rewrite Hr, Ha.
  rewrite !attributeValue_insert, !bool_decide_eq_true_2 by done.
  split; [done|]. lia.
Qed.

(** C4 (as stated) fails twice over: a capped attribute credit is undone
    in full (98, then 100, then 95), and the level bonus of a completion
    that gained a level survives the undo (0, then 3 + 1, then 1). *)
Lemma complete_then_undo_not_restored :
  (inactive cappedDb "q" ∧
   column (λ p, attributeValue (attributes p) "mental") cappedDb = Some 98 ∧
   column (λ p, attributeValue (attributes p) "mental")
     (calls [CallComplete 5 "q"; CallUndo "q"] cappedDb) = Some 95) ∧
  (inactive freshDb "r" ∧
   targetAttribute genericQuest = None ∧
   column availablePoints freshDb = Some 0 ∧
   column availablePoints (calls [CallComplete 5 "r"] freshDb) = Some 4 ∧
   column availablePoints (calls [CallComplete 5 "r"; CallUndo "r"] freshDb)
     = Some 1).
Proof. by vm_compute. Qed.

Lemma complete_then_undo_witness :
  ∃ db2 p2, calls [CallComplete 5 "q"; CallUndo "q"] freshDb = db2 ∧
    profile db2 = Some p2 ∧ cumulativeXp p2 = 0 ∧
    availablePoints p2 = 0 ∧ attributeValue (attributes p2) "mental" = 10.
Proof.
  assert (Hal : ∀ a, targetOf mentalQuest = Some a → allowed a = true).
  { intros a [= <-]. reflexivity. }
  destruct (complete_then_undo 5 "q" mentalQuest defaultProfile freshDb
              eq_refl eq_refl I Hal)
    as (db1 & db2 & row & row' & p1 & p2 & Hc & Hp1 & Hx & Hp2 & H1 & H2 & _
        & [H3 _] & H5);
    [by vm_compute|by vm_compute|].
  destruct (H5 "mental" 5 eq_refl eq_refl) as [_ Hiff].
  exists db2, p2. unfold calls, call. simpl. rewrite Hc. simpl. rewrite Hx. simpl.
  split; [done|]. split; [exact Hp2|]. split; [exact H1|]. split; [exact H3|].
  apply Hiff. split; [by vm_compute|left; by vm_compute].
Defined.

(** C5. Frame conditions of the two rollbacks: [cancelQuestCompletion]
    never changes [cumulativeXp], and [undoQuestCompletion] never changes
    the current [xp] or [level]. *)
Theorem rollback_frames (q : string) (db : Db) :
  column cumulativeXp (state_after (cancelQuestCompletion q db))
    = column cumulativeXp db ∧
  column xp (state_after (undoQuestCompletion q db)) = column xp db ∧
  column level (state_after (undoQuestCompletion q db)) = column level db.
Proof.
  repeat split; unfold_store;
    (destruct (quests db !! q) as [quest|]; simpl; [|done]);
    (destruct (questProgress db !! q) as [r|] eqn:Hr; simpl; [|done]);
    (destruct (completed r); simpl; [|done]);
    rewrite Hr; simpl;
    (destruct (profile db) as [p|] eqn:Hp; simpl; [|by rewrite Hp]).
  - destruct (cancellationUpdates quest p) as [u|e] eqn:Hu; simpl; rewrite Hp;
      [|done].
    change (Some (cumulativeXp (applyUpdates u p)) = Some (cumulativeXp p)).
    by rewrite (cancellationUpdates_cumulativeXp _ _ _ Hu).
  - destruct (undoUpdates quest p) as [u|e] eqn:Hu; simpl; rewrite Hp; [|done].
    change (Some (xp (applyUpdates u p)) = Some (xp p)).
    by rewrite (proj1 (undoUpdates_frame _ _ _ Hu)).
  - destruct (undoUpdates quest p) as [u|e] eqn:Hu; simpl; rewrite Hp; [|done].
    change (Some (level (applyUpdates u p)) = Some (level p)).
    by rewrite (proj2 (undoUpdates_frame _ _ _ Hu)).
Qed.

(** C6. [deleteQuestGroup] deletes the quests of the group without first
    deleting their progress rows, as [deleteQuest] does: once a quest of
    the group has a progress row the delete is refused by the foreign key
    of [quest_progress], and the group, the quest and the row all stay. *)
Theorem deleteQuestGroup_with_progress :
  let db := calls [CallComplete 5 "q"] freshDb in
  groupId mentalQuest = Some "g" ∧
  (completed <$> questProgress db !! "q") = Some true ∧
  deleteQuestGroup "g" db = (db, Err ForeignKeyViolation) ∧
  outcome (getQuest "q" (state_after (deleteQuestGroup "g" db)))
    = Ok (Some mentalQuest) ∧
  outcome (getQuest "q" (state_after (deleteQuest "q" db))) = Ok None ∧
  questProgress (state_after (deleteQuest "q" db)) !! "q" = None.
Proof. by vm_compute. Qed.

(** C7 (as amended). [deleteArchivedQuest] succeeds, removing the
    progress row, exactly when the row exists with [isArchived = true];
    the value it then resolves to is [false], the result of the driver
    carrying no [rowCount].  When the row exists with
    [isArchived = false] and also when there is no row at all it throws
    'Quest not archived' (InvalidState), and the database is left as it
    was. *)
Theorem deleteArchived_outcomes (q : string) (db : Db) :
  ((∃ r, questProgress db !! q = Some r ∧ isArchived r = true) →
     deleteArchivedQuest q db
       = (set_questProgress (delete q (questProgress db)) db, Ok false)) ∧
  ((∃ r, questProgress db !! q = Some r ∧ isArchived r = false) →
     deleteArchivedQuest q db = (db, Err QuestNotArchived)) ∧
  (questProgress db !! q = None →
     deleteArchivedQuest q db = (db, Err QuestNotArchived)) ∧
  error_kind QuestNotArchived = InvalidState.
Proof.
  repeat split.
  - intros (r & Hr & Ha). unfold_store. rewrite Hr. simpl. rewrite Ha. simpl.
    by rewrite Hr.
  - intros (r & Hr & Ha). unfold_store. rewrite Hr. simpl. by rewrite Ha.
  - intros Hr. unfold_store. by rewrite Hr.
Qed.

(** C7 (as stated) fails where there is no progress row: the error is
    'Quest not archived', not one of the NotFound kind. *)
Lemma deleteArchived_missing_row :
  questProgress freshDb !! "q" = None ∧
  outcome (deleteArchivedQuest "q" freshDb) = Err QuestNotArchived ∧
  ¬ (∃ e, outcome (deleteArchivedQuest "q" freshDb) = Err e
          ∧ error_kind e = NotFound).
Proof.
  split; [reflexivity|]. split; [reflexivity|].
  intros (e & He & Hk). vm_compute in He. by simplify_eq.
Qed.

Lemma deleteArchived_outcomes_witness :
  let archived := calls [CallComplete 5 "q"; CallArchive 6 "q" "done"] freshDb in
  let completedOnly := calls [CallComplete 5 "q"] freshDb in
  questProgress (state_after (deleteArchivedQuest "q" archived)) !! "q" = None ∧
  deleteArchivedQuest "q" completedOnly = (completedOnly, Err QuestNotArchived) ∧
  deleteArchivedQuest "q" freshDb = (freshDb, Err QuestNotArchived).
Proof.
  intros archived completedOnly. split; [|split].
  - rewrite (proj1 (deleteArchived_outcomes "q" archived)).
    + reflexivity.
    + eexists. split; reflexivity.
  - apply (proj1 (proj2 (deleteArchived_outcomes "q" completedOnly))).
    eexists. split; reflexivity.
  - apply (proj1 (proj2 (proj2 (deleteArchived_outcomes "q" freshDb)))).
    reflexivity.
Defined.

(** C8. [cancelQuestCompletion] throws 'Quest not found' (NotFound) for an
    unknown quest id and 'Quest not completed' (InvalidState) when the
    progress row is missing or not completed; whenever it throws, the
    database (progress rows and profile alike) is exactly as before. *)
Theorem cancel_errors_leave_state (q : string) (db : Db) :
  (quests db !! q = None →
     cancelQuestCompletion q db = (db, Err QuestNotFound)) ∧
  (is_Some (quests db !! q) → inactive db q →
     cancelQuestCompletion q db = (db, Err QuestNotCompleted)) ∧
  (∀ e, outcome (cancelQuestCompletion q db) = Err e →
     state_after (cancelQuestCompletion q db) = db) ∧
  error_kind QuestNotFound = NotFound ∧
  error_kind QuestNotCompleted = InvalidState.
Proof.
  repeat split.
  - intros Hq. unfold_store. by rewrite Hq.
  - intros [quest Hq] Hin. unfold_store. unfold inactive in Hin.
    rewrite Hq. simpl. destruct (questProgress db !! q) as [r|]; [|done].
    by rewrite Hin.
  - intros e. unfold_store.
    destruct (quests db !! q) as [quest|]; simpl; [|done].
    destruct (questProgress db !! q) as [r|] eqn:Hr; simpl; [|done].
    destruct (completed r); simpl; [|done].
    rewrite Hr. simpl. destruct (profile db) as [cur|]; simpl; [|discriminate].
    by destruct (cancellationUpdates quest cur).
Qed.

Lemma cancel_errors_leave_state_witness :
  cancelQuestCompletion "q" emptyDb = (emptyDb, Err QuestNotFound) ∧
  cancelQuestCompletion "q" freshDb = (freshDb, Err QuestNotCompleted).
Proof.
  split.
  - apply (proj1 (cancel_errors_leave_state "q" emptyDb)). reflexivity.
  - apply (proj1 (proj2 (cancel_errors_leave_state "q" freshDb))).
    + exists mentalQuest. reflexivity.
    + exact I.
Defined.

(** C9. The level-curve scenario: a quest worth 100 XP and 5 points to
    [mental], an inactive progress state and a profile with [xp = 750],
    [level = 1], [mental = 10].  Complete gives [xp = 850], [level = 2],
    one more available point and [mental = 15], as claimed.  The Cancel
    that follows gives nothing back: its UPDATE is rejected by the
    database, the transaction is rolled back and the call throws, so the
    row stays completed and the profile stays at [xp = 850], [level = 2],
    [mental = 15]. *)
Theorem level_curve_scenario
    (now : Z) (q : string) (quest : Quest) (p : Profile) (db : Db) :
  quests db !! q = Some quest →
  xpReward quest = Some 100 →
  attributePointReward quest = Some 5 →
  targetAttribute quest = Some "mental" →
  profile db = Some p →
  xp p = 750 → level p = 1 → attributes p !! "mental" = Some 10 →
  inactive db q →
  ∃ db1 row p1,
    completeQuest now q db = (db1, Ok row) ∧ profile db1 = Some p1 ∧
    (xp p1 = 850 ∧ level p1 = 2 ∧
     availablePoints p1 = availablePoints p + 1 ∧
     attributes p1 !! "mental" = Some 15) ∧
    cancelQuestCompletion q db1 = (db1, Err InvalidTextRepresentation) ∧
    (completed <$> questProgress db1 !! q) = Some true.
Proof.
  intros Hq Hxr Har Hta Hp Hxp Hlevel Hmental Hin.
  assert (Htarget : targetOf quest = Some "mental") by (unfold targetOf; by rewrite Hta).
  assert (Hpoints : pointsOf quest = Some 5) by (unfold pointsOf; by rewrite Har).
  assert (Hxq : xpOf quest = 100) by (unfold xpOf; by rewrite Hxr).
  assert (Hal : ∀ a, targetOf quest = Some a → allowed a = true).
  { intros a. rewrite Htarget. by intros [= <-]. }
  assert (Hpay : paysTarget quest = true).
  { unfold paysTarget. by rewrite Hpoints, Htarget. }
  destruct (complete_cancel_rejected now q quest p db Hq Hp Hin Hal Hpay)
    as (u & db1 & Hu & Hc & Hp1 & Hrow & Hx).
  exists db1. eexists. exists (applyUpdates u p).
  split; [exact Hc|]. split; [exact Hp1|].
  split; [|split; [exact Hx|rewrite Hrow; simpl; by rewrite completionRow_resting]].
  destruct (completionUpdates_effect _ _ _ Hu) as (Hx1 & Hl1 & Hc1 & Ha1 & Ht1).
  rewrite Hx1, Hl1, Ha1, Ht1.
  unfold retarget, genericPoints. rewrite Hpoints, Htarget, Hxp, Hxq.
  unfold attributeValue. rewrite Hmental. cbn [default from_option id].
  rewrite !lookup_insert_eq.
  change (levelForXp (750 + 100)) with 2.
  change (levelForXp 750) with 1.
  split; [done|]. split; [done|]. split; [lia|done].
Qed.

Lemma level_curve_scenario_witness :
  let start :=
    mkDb (Some (mkProfile 1 750 0 0 (attributes defaultProfile)))
      groups catalogue ∅ in
  column xp (calls [CallComplete 5 "q"] start) = Some 850 ∧
  column level (calls [CallComplete 5 "q"] start) = Some 2 ∧
  column xp (calls [CallComplete 5 "q"; CallCancel "q"] start) = Some 850 ∧
  column level (calls [CallComplete 5 "q"; CallCancel "q"] start) = Some 2 ∧
  column (λ p, attributes p !! "mental")
    (calls [CallComplete 5 "q"; CallCancel "q"] start) = Some (Some 15).
Proof.
  intros start.
  destruct (level_curve_scenario 5 "q" mentalQuest
              (mkProfile 1 750 0 0 (attributes defaultProfile)) start
              eq_refl eq_refl eq_refl eq_refl eq_refl eq_refl eq_refl eq_refl I)
    as (db1 & row & p1 & Hc & Hp1 & (H1 & H2 & _ & H3) & Hx & _).
  unfold calls, call, column. simpl. rewrite Hc. simpl. rewrite Hx. simpl.
  rewrite Hp1. simpl. by rewrite H1, H2, H3.
Defined.

(** C10. In every state the engine calls (Complete, Cancel, Archive,
    RestoreFromArchive, DeleteArchived, Undo) reach from an empty progress
    table, a row with [completed = false] has [progress = 0]; so a
    Complete that flips a quest to completed returns, and stores, a
    completed row with [progress] exactly 1. *)
Theorem reachable_rows_rest_at_zero (cs : list Call) (db : Db) :
  questProgress db = ∅ →
  (∀ q r, questProgress (calls cs db) !! q = Some r →
          completed r = false → progress r = 0) ∧
  (∀ now q row db',
     inactive (calls cs db) q →
     completeQuest now q (calls cs db) = (db', Ok row) →
     Returned.completed row = true ∧ Returned.progress row = 1 ∧
     (completed <$> questProgress db' !! q) = Some true ∧
     (progress <$> questProgress db' !! q) = Some 1).
Proof.
  intros Hempty.
  assert (Hrest : restingRows (questProgress (calls cs db))).
  { apply calls_restingRows. rewrite Hempty. intros q r. by rewrite lookup_empty. }
  split; [exact Hrest|].
  intros now q row db' Hin Hc.
  destruct (quests (calls cs db) !! q) as [quest|] eqn:Hq.
  - rewrite (completeQuest_inactive now q quest _ Hq Hin) in Hc. simpl in Hc.
    set (stored := completionRow now (questProgress (calls cs db) !! q)) in *.
    assert (Hstored : completed stored = true ∧ progress stored = 1).
    { split; [apply completionRow_resting|]. unfold stored, inactive in *.
      destruct (questProgress (calls cs db) !! q) as [r|] eqn:Hr; simpl; [|done].
      rewrite Hin. by rewrite (Hrest q r Hr Hin). }
    assert (row = returning q now stored ∧
            questProgress db' !! q = Some stored) as [-> Hl].
    { destruct (profile (calls cs db)) as [p|].
      - destruct (completionUpdates quest p); simplify_eq.
        split; [done|]. apply lookup_insert_eq.
      - simplify_eq. split; [done|]. apply lookup_insert_eq. }
    rewrite Hl. simpl. destruct Hstored as [-> ->]. done.
  - unfold_store. rewrite Hq in Hc. simpl in Hc. by simplify_eq.
Qed.

Lemma reachable_rows_rest_at_zero_witness :
  let db := calls [CallComplete 5 "r"; CallCancel "r"] freshDb in
  (progress <$> questProgress db !! "r") = Some 0 ∧
  (progress <$> questProgress (calls [CallComplete 7 "r"] db) !! "r") = Some 1.
Proof.
  intros db.
  destruct (reachable_rows_rest_at_zero
              [CallComplete 5 "r"; CallCancel "r"] freshDb eq_refl) as [H1 H2].
  split.
  - destruct (questProgress db !! "r") as [r|] eqn:Hr; [|by vm_compute in Hr].
    simpl. f_equal. apply (H1 "r" r); [exact Hr|].
    vm_compute in Hr. by simplify_eq.
  - destruct (completeQuest 7 "r" db) as [db' [row|e]] eqn:Hc;
      [|by vm_compute in Hc].
    destruct (H2 7 "r" row db') as (_ & _ & _ & Hp); [by vm_compute|exact Hc|].
    unfold calls, call. simpl. rewrite Hc. simpl. exact Hp.
Defined.

(** ** Further properties of the storage layer *)

(** *** Single steps of the remaining methods *)

Lemma cancelQuestCompletion_inactive (q : string) (db : Db) :
  is_Some (quests db !! q) → inactive db q →
  cancelQuestCompletion q db = (db, Err QuestNotCompleted).
Proof.
  intros [quest Hq] Hin. unfold_store. unfold inactive in Hin.
  rewrite Hq. simpl. destruct (questProgress db !! q) as [r|]; [|done].
  by rewrite Hin.
Qed.

Lemma undoQuestCompletion_inactive (q : string) (db : Db) :
  is_Some (quests db !! q) → inactive db q →
  undoQuestCompletion q db = (db, Err QuestNotCompleted).
Proof.
  intros [quest Hq] Hin. unfold_store. unfold inactive in Hin.
  rewrite Hq. simpl. destruct (questProgress db !! q) as [r|]; [|done].
  by rewrite Hin.
Qed.

Lemma archiveQuest_present (now : Z) (q reason : string) (r : QuestProgress) (db : Db) :
  questProgress db !! q = Some r →
  archiveQuest now q reason db
    = (set_questProgress (<[q := archivedRow now reason r]> (questProgress db)) db,
       Ok (Some (archivedRow now reason r))).
Proof. intros Hr. unfold_store. rewrite Hr. simpl. by rewrite Hr. Qed.

Lemma archiveQuest_absent (now : Z) (q reason : string) (db : Db) :
  questProgress db !! q = None →
  archiveQuest now q reason db = (db, Err QuestProgressNotFound).
Proof. intros Hr. unfold_store. by rewrite Hr. Qed.

Lemma restoreQuestFromArchive_present (q : string) (r : QuestProgress) (db : Db) :
  questProgress db !! q = Some r →
  restoreQuestFromArchive q db
    = (set_questProgress (<[q := restoredRow r]> (questProgress db)) db,
       Ok (restoredRow r)).
Proof. intros Hr. unfold_store. by rewrite Hr. Qed.

Lemma restoreQuestFromArchive_absent (q : string) (db : Db) :
  questProgress db !! q = None →
  restoreQuestFromArchive q db = (db, Err QuestProgressNotFound).
Proof. intros Hr. unfold_store. by rewrite Hr. Qed.

Lemma deleteArchivedQuest_archived (q : string) (r : QuestProgress) (db : Db) :
  questProgress db !! q = Some r → isArchived r = true →
  deleteArchivedQuest q db
    = (set_questProgress (delete q (questProgress db)) db, Ok false).
Proof.
  intros Hr Ha. unfold_store. rewrite Hr. simpl. rewrite Ha. simpl.
  by rewrite Hr.
Qed.

Lemma deleteArchivedQuest_refused (q : string) (db : Db) :
  default false (isArchived <$> questProgress db !! q) = false →
  deleteArchivedQuest q db = (db, Err QuestNotArchived).
Proof. intros Ha. unfold_store. by rewrite Ha. Qed.

(** *** Failures *)

Lemma completionUpdates_refusal (quest : Quest) (p : Profile) (a : string) :
  targetOf quest = Some a → allowed a = false → is_Some (pointsOf quest) →
  completionUpdates quest p = Err (InvalidTargetAttribute a).
Proof.
  intros Ha Hno [r Hr]. unfold completionUpdates. by rewrite Hr, Ha, Hno.
Qed.

Lemma completionUpdates_error (quest : Quest) (p : Profile) (e : StorageError) :
  completionUpdates quest p = Err e →
  ∃ a, targetOf quest = Some a ∧ allowed a = false ∧
       is_Some (pointsOf quest) ∧ e = InvalidTargetAttribute a.
Proof.
  unfold completionUpdates. ledger_cases; intros H; simplify_eq; eauto 10.
Qed.

Lemma undoUpdates_error (quest : Quest) (p : Profile) (e : StorageError) :
  undoUpdates quest p = Err e →
  ∃ a, targetOf quest = Some a ∧ allowed a = false ∧
       is_Some (pointsOf quest) ∧ e = InvalidTargetAttribute a.
Proof.
  unfold undoUpdates. ledger_cases; intros H; simplify_eq; eauto 10.
Qed.

(** X1. When [completeQuest] throws, the database is exactly as before,
    the upsert of the progress row included.  It throws 'Quest not found'
    for an unknown id, and otherwise only 'Invalid target attribute' for
    a quest that pays attribute points to a name outside the five
    attributes while a profile row exists; an inactive quest of that kind
    always fails that way, so it cannot be completed. *)
Theorem completeQuest_failure (now : Z) (q : string) (db : Db) :
  (∀ e, outcome (completeQuest now q db) = Err e →
     state_after (completeQuest now q db) = db ∧
     ((quests db !! q = None ∧ e = QuestNotFound) ∨
      ∃ quest a, quests db !! q = Some quest ∧ targetOf quest = Some a ∧
        allowed a = false ∧ is_Some (pointsOf quest) ∧
        is_Some (profile db) ∧ e = InvalidTargetAttribute a)) ∧
  (∀ quest a, quests db !! q = Some quest → inactive db q →
     targetOf quest = Some a → allowed a = false →
     is_Some (pointsOf quest) → is_Some (profile db) →
     completeQuest now q db = (db, Err (InvalidTargetAttribute a))).
Proof.
  split.
  - intros e. destruct (quests db !! q) as [quest|] eqn:Hq.
    + rewrite (completeQuest_known now q quest db Hq). cbn zeta.
      destruct (wasJustCompleted _ _); [|discriminate].
      destruct (profile db) as [p|] eqn:Hp; [|discriminate].
      destruct (completionUpdates quest p) as [u|e'] eqn:Hu; [discriminate|].
      intros [= <-]. split; [done|]. right.
      destruct (completionUpdates_error _ _ _ Hu) as (a & Ha & Hno & Hpts & ->).
      exists quest, a. by eauto 10.
    + unfold_store. rewrite Hq. simpl. intros [= <-]. by eauto.
  - intros quest a Hq Hin Ha Hno Hpts [p Hp].
    rewrite (completeQuest_inactive now q quest db Hq Hin). cbn zeta.
    by rewrite Hp, (completionUpdates_refusal quest p a).
Qed.

Lemma completeQuest_failure_witness :
  completeQuest 5 "s" strayDb = (strayDb, Err (InvalidTargetAttribute "luck")) ∧
  state_after (completeQuest 5 "nobody" strayDb) = strayDb.
Proof.
  split.
  - apply (proj2 (completeQuest_failure 5 "s" strayDb) strayQuest "luck");
      try reflexivity; try exact I; by eexists.
  - apply (proj1 (completeQuest_failure 5 "nobody" strayDb) QuestNotFound).
    reflexivity.
Defined.

(** X2. [undoQuestCompletion] throws 'Quest not found' for an unknown id
    and 'Quest not completed' when the row is missing or not completed.
    Whatever it throws, the whitelist refusal raised after the row was
    already reset included, the database is exactly as before. *)
Theorem undoQuestCompletion_failure (q : string) (db : Db) :
  (quests db !! q = None →
     undoQuestCompletion q db = (db, Err QuestNotFound)) ∧
  (is_Some (quests db !! q) → inactive db q →
     undoQuestCompletion q db = (db, Err QuestNotCompleted)) ∧
  (∀ e, outcome (undoQuestCompletion q db) = Err e →
     state_after (undoQuestCompletion q db) = db ∧
     (e = QuestNotFound ∨ e = QuestNotCompleted ∨
      ∃ quest r a, quests db !! q = Some quest ∧
        questProgress db !! q = Some r ∧ completed r = true ∧
        targetOf quest = Some a ∧ allowed a = false ∧
        e = InvalidTargetAttribute a)).
Proof.
  split; [|split].
  - intros Hq. unfold_store. by rewrite Hq.
  - intros [quest Hq] Hin. unfold_store. unfold inactive in Hin.
    rewrite Hq. simpl. destruct (questProgress db !! q) as [r|]; [|done].
    by rewrite Hin.
  - intros e. destruct (quests db !! q) as [quest|] eqn:Hq;
      [|unfold_store; rewrite Hq; simpl; intros [= <-]; by eauto].
    destruct (questProgress db !! q) as [r|] eqn:Hr;
      [|unfold_store; rewrite Hq; simpl; rewrite Hr; simpl;
        intros [= <-]; by eauto].
    destruct (completed r) eqn:Hc;
      [|unfold_store; rewrite Hq; simpl; rewrite Hr; simpl; rewrite Hc;
        simpl; intros [= <-]; by eauto].
    rewrite (undoQuestCompletion_completed q quest r db Hq Hr Hc). cbn zeta.
    destruct (profile db) as [p|]; [|discriminate].
    destruct (undoUpdates quest p) as [u|e'] eqn:Hu; [discriminate|].
    intros [= <-]. split; [done|]. right. right.
    destruct (undoUpdates_error _ _ _ Hu) as (a & Ha & Hno & _ & ->).
    exists quest, r, a. by eauto 10.
Qed.

Lemma undoQuestCompletion_failure_witness :
  undoQuestCompletion "nobody" freshDb = (freshDb, Err QuestNotFound) ∧
  undoQuestCompletion "q" freshDb = (freshDb, Err QuestNotCompleted) ∧
  state_after (undoQuestCompletion "q" freshDb) = freshDb.
Proof.
  split; [|split].
  - apply (proj1 (undoQuestCompletion_failure "nobody" freshDb)). reflexivity.
  - apply (proj1 (proj2 (undoQuestCompletion_failure "q" freshDb))).
    + by eexists.
    + exact I.
  - apply (proj2 (proj2 (undoQuestCompletion_failure "q" freshDb))
             QuestNotCompleted).
    reflexivity.
Defined.

(** *** Repeating a call *)

(** X3. A Complete repeated on an inactive quest at a later clock
    reading changes nothing.  Where the first call returned a row, with
    [wasJustCompleted = true], the repeat returns the same row with
    [wasJustCompleted = false]; where the first call threw, the repeat
    throws the same error. *)
Theorem completeQuest_retry_later (t1 t2 : Z) (q : string) (db : Db) :
  t1 ≠ t2 → inactive db q →
  let db1 := state_after (completeQuest t1 q db) in
  state_after (completeQuest t2 q db1) = db1 ∧
  match outcome (completeQuest t1 q db) with
  | Ok row =>
      Returned.wasJustCompleted row = true ∧
      outcome (completeQuest t2 q db1)
        = Ok {| Returned.questId := Returned.questId row;
                Returned.progress := Returned.progress row;
                Returned.completed := Returned.completed row;
                Returned.completedAt := Returned.completedAt row;
                Returned.wasJustCompleted := false |}
  | Err e => outcome (completeQuest t2 q db1) = Err e
  end.
Proof.
  intros Ht Hin. cbn zeta. destruct (quests db !! q) as [quest|] eqn:Hq.
  - rewrite (completeQuest_inactive t1 q quest db Hq Hin). cbn zeta.
    set (row := completionRow t1 (questProgress db !! q)).
    assert (Hstamp : completedAt row ≠ Some t2).
    { unfold row. rewrite completionRow_stamp by done. congruence. }
    assert (Hdone : completed row = true) by apply completionRow_resting.
    assert (Hjust : wasJustCompleted t1 row = true)
      by apply (completionRow_inactive t1 _ Hin).
    assert (Hlater : wasJustCompleted t2 row = false).
    { unfold wasJustCompleted. by apply bool_decide_eq_false_2. }
    destruct (profile db) as [p|] eqn:Hp.
    + destruct (completionUpdates quest p) as [u|e] eqn:Hu;
        unfold state_after, outcome; cbn [fst snd].
      * rewrite (completeQuest_completed_later t2 q _ row);
          [|cbn; rewrite Hq; eauto|apply lookup_insert_eq|done|done].
        cbn [fst snd returning Returned.questId Returned.progress
             Returned.completed Returned.completedAt Returned.wasJustCompleted].
        unfold returning. by rewrite Hlater.
      * rewrite (completeQuest_inactive t2 q quest db Hq Hin). cbn zeta.
        by rewrite Hp, Hu.
    + unfold state_after, outcome; cbn [fst snd].
      rewrite (completeQuest_completed_later t2 q _ row);
        [|cbn; rewrite Hq; eauto|apply lookup_insert_eq|done|done].
      cbn [fst snd returning Returned.questId Returned.progress
           Returned.completed Returned.completedAt Returned.wasJustCompleted].
      unfold returning. by rewrite Hlater.
  - unfold_store. rewrite Hq. simpl. by rewrite Hq.
Qed.

Lemma completeQuest_retry_later_witness :
  state_after (completeQuest 6 "q" (state_after (completeQuest 5 "q" freshDb)))
    = state_after (completeQuest 5 "q" freshDb) ∧
  ∃ first again,
    outcome (completeQuest 5 "q" freshDb) = Ok first ∧
    outcome (completeQuest 6 "q" (state_after (completeQuest 5 "q" freshDb)))
      = Ok again ∧
    Returned.wasJustCompleted first = true ∧
    Returned.wasJustCompleted again = false ∧
    Returned.completedAt again = Returned.completedAt first.
Proof.
  destruct (completeQuest_retry_later 5 6 "q" freshDb ltac:(lia) I) as [Hs Ho].
  split; [exact Hs|].
  destruct (outcome (completeQuest 5 "q" freshDb)) as [row|e] eqn:Hfirst;
    [|by vm_compute in Hfirst].
  destruct Ho as [Hj Hagain]. do 2 eexists.
  split; [done|]. split; [exact Hagain|]. by split.
Defined.

Lemma cancelQuestCompletion_success (q : string) (db db1 : Db) (res : option QuestProgress) :
  cancelQuestCompletion q db = (db1, Ok res) →
  ∃ quest r, quests db !! q = Some quest ∧ questProgress db !! q = Some r ∧
    completed r = true ∧ res = Some (resetCompletion r) ∧
    quests db1 = quests db ∧ questGroups db1 = questGroups db ∧
    questProgress db1 = <[q := resetCompletion r]> (questProgress db) ∧
    match profile db with
    | Some p => ∃ u, cancellationUpdates quest p = Ok u ∧
                     profile db1 = Some (applyUpdates u p)
    | None => profile db1 = None
    end.
Proof.
  destruct (quests db !! q) as [quest|] eqn:Hq;
    [|unfold_store; rewrite Hq; simpl; discriminate].
  destruct (questProgress db !! q) as [r|] eqn:Hr;
    [|unfold_store; rewrite Hq; simpl; rewrite Hr; simpl; discriminate].
  destruct (completed r) eqn:Hc;
    [|unfold_store; rewrite Hq; simpl; rewrite Hr; simpl; rewrite Hc;
      simpl; discriminate].
  rewrite (cancelQuestCompletion_completed q quest r db Hq Hr Hc). cbn zeta.
  destruct (profile db) as [p|] eqn:Hp.
  - destruct (cancellationUpdates quest p) as [u|e] eqn:Hu; [|discriminate].
    intros [= <- <-]. exists quest, r. repeat split; try done. by exists u.
  - intros [= <- <-]. exists quest, r. by repeat split.
Qed.

Lemma undoQuestCompletion_success (q : string) (db db1 : Db) (res : option QuestProgress) :
  undoQuestCompletion q db = (db1, Ok res) →
  ∃ quest r, quests db !! q = Some quest ∧ questProgress db !! q = Some r ∧
    completed r = true ∧ res = Some (resetAll r) ∧
    quests db1 = quests db ∧ questGroups db1 = questGroups db ∧
    questProgress db1 = <[q := resetAll r]> (questProgress db).
Proof.
  destruct (quests db !! q) as [quest|] eqn:Hq;
    [|unfold_store; rewrite Hq; simpl; discriminate].
  destruct (questProgress db !! q) as [r|] eqn:Hr;
    [|unfold_store; rewrite Hq; simpl; rewrite Hr; simpl; discriminate].
  destruct (completed r) eqn:Hc;
    [|unfold_store; rewrite Hq; simpl; rewrite Hr; simpl; rewrite Hc;
      simpl; discriminate].
  rewrite (undoQuestCompletion_completed q quest r db Hq Hr Hc). cbn zeta.
  destruct (profile db) as [p|].
  - destruct (undoUpdates quest p); [|discriminate].
    intros [= <- <-]. exists quest, r. by repeat split.
  - intros [= <- <-]. exists quest, r. by repeat split.
Qed.

(** X4. A rollback happens once: right after a successful Cancel or
    Undo the quest is inactive, and a further Cancel or Undo throws
    'Quest not completed' and changes nothing, so no reward is taken
    back twice. *)
Theorem rollback_only_once (q : string) (db db1 : Db) (res : option QuestProgress) :
  cancelQuestCompletion q db = (db1, Ok res) ∨
  undoQuestCompletion q db = (db1, Ok res) →
  inactive db1 q ∧
  cancelQuestCompletion q db1 = (db1, Err QuestNotCompleted) ∧
  undoQuestCompletion q db1 = (db1, Err QuestNotCompleted).
Proof.
  intros Hdone.
  assert (is_Some (quests db1 !! q) ∧ inactive db1 q) as [Hq Hin].
  { unfold inactive. destruct Hdone as [H|H].
    - apply cancelQuestCompletion_success in H
        as (quest & r & Hq & _ & _ & _ & -> & _ & -> & _).
      rewrite lookup_insert_eq. split; [by eexists|done].
    - apply undoQuestCompletion_success in H
        as (quest & r & Hq & _ & _ & _ & -> & _ & ->).
      rewrite lookup_insert_eq. split; [by eexists|done]. }
  split; [done|]. split.
  - by apply cancelQuestCompletion_inactive.
  - by apply undoQuestCompletion_inactive.
Qed.

Lemma rollback_only_once_witness :
  let db1 := calls [CallComplete 5 "r"; CallCancel "r"] freshDb in
  cancelQuestCompletion "r" db1 = (db1, Err QuestNotCompleted).
Proof.
  intros db1.
  change db1 with
    (state_after (cancelQuestCompletion "r"
                    (state_after (completeQuest 5 "r" freshDb)))).
  destruct (cancelQuestCompletion "r" (state_after (completeQuest 5 "r" freshDb)))
    as [db' [res|e]] eqn:Hc; [|by vm_compute in Hc].
  apply (rollback_only_once "r" (state_after (completeQuest 5 "r" freshDb))
           db' res).
  left. exact Hc.
Defined.

(** *** Archiving *)

(** X5. Archiving a row and restoring it leaves its completion fields
    alone and its archive fields cleared with [canUndo = true]; for a row
    that was not archived before (as Complete creates it) the database
    is back to exactly what it was. *)
Theorem archive_then_restore (now : Z) (q reason : string) (r : QuestProgress) (db : Db) :
  questProgress db !! q = Some r →
  questProgress (calls [CallArchive now q reason; CallRestore q] db) !! q
    = Some (restoredRow r) ∧
  (isArchived r = false → archivedAt r = None → archiveReason r = None →
   canUndo r = true →
   calls [CallArchive now q reason; CallRestore q] db = db).
Proof.
  intros Hr. unfold calls, call. cbn [foldl].
  rewrite (archiveQuest_present now q reason r db Hr).
  unfold state_after at 2 4. cbn [fst].
  rewrite (restoreQuestFromArchive_present q (archivedRow now reason r))
    by apply lookup_insert_eq.
  unfold state_after. cbn [fst questProgress set_questProgress].
  rewrite insert_insert_eq.
  split; [by rewrite lookup_insert_eq|].
  intros Ha Hat Hre Hcu.
  assert (Hrow : restoredRow (archivedRow now reason r) = r).
  { destruct r; simpl in *. by subst. }
  rewrite Hrow, insert_id by done.
  unfold set_questProgress. cbn. apply db_eta.
Qed.

Lemma archive_then_restore_witness :
  let db := calls [CallComplete 5 "q"] freshDb in
  calls [CallArchive 6 "q" "done"; CallRestore "q"] db = db.
Proof.
  intros db.
  destruct (questProgress db !! "q") as [r|] eqn:Hr; [|by vm_compute in Hr].
  apply (proj2 (archive_then_restore 6 "q" "done" r db Hr));
    vm_compute in Hr; by simplify_eq.
Defined.

Lemma archive_call_cases (c : Call) (db : Db) :
  ledgerCall c = false →
  call c db = db ∨
  (∃ r r', questProgress db !! questOf c = Some r ∧
     progress r' = progress r ∧ completed r' = completed r ∧
     completedAt r' = completedAt r ∧
     call c db = set_questProgress (<[questOf c := r']> (questProgress db)) db) ∨
  (∃ r, questProgress db !! questOf c = Some r ∧ isArchived r = true ∧
     call c db = set_questProgress (delete (questOf c) (questProgress db)) db).
Proof.
  intros Hc. destruct c as [now q|q|now q reason|q|q|q]; try discriminate Hc;
    cbn [call questOf].
  - destruct (questProgress db !! q) as [r|] eqn:Hr.
    + right. left. exists r, (archivedRow now reason r).
      by rewrite (archiveQuest_present now q reason r db Hr).
    + left. by rewrite (archiveQuest_absent now q reason db Hr).
  - destruct (questProgress db !! q) as [r|] eqn:Hr.
    + right. left. exists r, (restoredRow r).
      by rewrite (restoreQuestFromArchive_present q r db Hr).
    + left. by rewrite (restoreQuestFromArchive_absent q db Hr).
  - destruct (questProgress db !! q) as [r|] eqn:Hr.
    + destruct (isArchived r) eqn:Ha.
      * right. right. exists r.
        by rewrite (deleteArchivedQuest_archived q r db Hr Ha).
      * left. rewrite deleteArchivedQuest_refused; [done|]. by rewrite Hr; simpl.
    + left. rewrite deleteArchivedQuest_refused; [done|]. by rewrite Hr.
Qed.

(** X6. Archive, RestoreFromArchive and DeleteArchived never touch the
    profile, the quests or the groups, never create a progress row,
    never touch the row of another quest, and never change the
    [progress], [completed] or [completedAt] of a row they keep. *)
Theorem archive_calls_frame (c : Call) (db : Db) :
  ledgerCall c = false →
  profile (call c db) = profile db ∧
  quests (call c db) = quests db ∧
  questGroups (call c db) = questGroups db ∧
  (∀ k, k ≠ questOf c →
        questProgress (call c db) !! k = questProgress db !! k) ∧
  (∀ k r', questProgress (call c db) !! k = Some r' →
     ∃ r, questProgress db !! k = Some r ∧ progress r' = progress r ∧
          completed r' = completed r ∧ completedAt r' = completedAt r).
Proof.
  intros Hc.
  destruct (archive_call_cases c db Hc)
    as [->|[(r & r' & Hr & Hp & Hd & Hat & ->)|(r & Hr & Ha & ->)]];
    cbn [profile quests questGroups questProgress set_questProgress].
  - repeat split; try done. intros k r' Hk. by exists r'.
  - repeat split; try done.
    + intros k Hk. by rewrite lookup_insert_ne.
    + intros k r''. rewrite lookup_insert. case_decide.
      * intros [= <-]. subst k. by exists r.
      * intros Hk. by exists r''.
  - repeat split; try done.
    + intros k Hk. by rewrite lookup_delete_ne.
    + intros k r'. rewrite lookup_delete. case_decide; [done|].
      intros Hk. by exists r'.
Qed.

Lemma archive_calls_frame_witness :
  let db := calls [CallComplete 5 "q"] freshDb in
  profile (call (CallArchive 6 "q" "done") db) = profile db.
Proof.
  intros db.
  apply (proj1 (archive_calls_frame (CallArchive 6 "q" "done") db eq_refl)).
Defined.

Lemma completionUpdates_then_undo (quest : Quest) (p p' : Profile) (u : Updates) :
  completionUpdates quest p = Ok u → ∃ u', undoUpdates quest p' = Ok u'.
Proof.
  intros Hu. destruct (undoUpdates quest p') as [u'|e] eqn:Hu'; [eauto|].
  destruct (undoUpdates_error _ _ _ Hu') as (a & Ha & Hno & Hpts & _).
  by rewrite (completionUpdates_refusal quest p a Ha Hno Hpts) in Hu.
Qed.

(** X7. Undo reaches the same state from the archive as from the
    completed state: for a quest without a progress row, Complete,
    Archive, Undo leaves the database exactly as Complete, Undo does. *)
Theorem undo_from_archive (t t' : Z) (q reason : string) (db : Db) :
  questProgress db !! q = None →
  calls [CallComplete t q; CallArchive t' q reason; CallUndo q] db
    = calls [CallComplete t q; CallUndo q] db.
Proof.
  intros Hr. unfold calls, call. cbn [foldl].
  assert (Hin : inactive db q) by (unfold inactive; by rewrite Hr).
  destruct (quests db !! q) as [quest|] eqn:Hq.
  - rewrite (completeQuest_inactive t q quest db Hq Hin). cbn zeta.
    rewrite Hr. cbn [completionRow].
    set (row := {| progress := 1; completed := true; completedAt := Some t;
                   isArchived := false; archivedAt := None;
                   archiveReason := None; canUndo := true |}).
    assert (Hsame : ∀ m : gmap string QuestProgress,
              <[q := resetAll (archivedRow t' reason row)]>
                (<[q := archivedRow t' reason row]> (<[q := row]> m))
              = <[q := resetAll row]> (<[q := row]> m)).
    { intros m. by rewrite !insert_insert_eq. }
    destruct (profile db) as [p|] eqn:Hp.
    + destruct (completionUpdates quest p) as [u|e] eqn:Hu;
        unfold state_after at 3 5; cbn [fst].
      * destruct (completionUpdates_then_undo quest p (applyUpdates u p) u Hu)
          as [u' Hu'].
        rewrite (archiveQuest_present t' q reason row) by apply lookup_insert_eq.
        unfold state_after at 2. cbn [fst].
        rewrite (undoQuestCompletion_completed q quest (archivedRow t' reason row));
          [|done|apply lookup_insert_eq|done].
        rewrite (undoQuestCompletion_completed q quest row);
          [|done|apply lookup_insert_eq|done].
        cbn zeta. cbn [profile set_profile set_questProgress].
        rewrite Hu'. unfold state_after. cbn [fst].
        unfold set_profile, set_questProgress. cbn. by rewrite Hsame.
      * rewrite (archiveQuest_absent t' q reason db Hr).
        unfold state_after at 2. by cbn [fst].
    + unfold state_after at 3 5; cbn [fst].
      rewrite (archiveQuest_present t' q reason row) by apply lookup_insert_eq.
      unfold state_after at 2. cbn [fst].
      rewrite (undoQuestCompletion_completed q quest (archivedRow t' reason row));
        [|done|apply lookup_insert_eq|done].
      rewrite (undoQuestCompletion_completed q quest row);
        [|done|apply lookup_insert_eq|done].
      cbn zeta. cbn [profile set_profile set_questProgress]. rewrite Hp.
      unfold state_after. cbn [fst].
      unfold set_questProgress. cbn. by rewrite Hsame.
  - assert (Hc : completeQuest t q db = (db, Err QuestNotFound))
      by (unfold_store; by rewrite Hq).
    rewrite Hc. unfold state_after at 3 5. cbn [fst].
    rewrite (archiveQuest_absent t' q reason db Hr).
    unfold state_after at 2. by cbn [fst].
Qed.

Lemma undo_from_archive_witness :
  calls [CallComplete 5 "q"; CallArchive 6 "q" "done"; CallUndo "q"] freshDb
    = calls [CallComplete 5 "q"; CallUndo "q"] freshDb.
Proof. apply (undo_from_archive 5 6 "q" "done" freshDb). reflexivity. Defined.

(** X8. Deleting an archived completion takes nothing back and frees
    the quest: Complete, Archive, DeleteArchived, Complete on an inactive
    quest pays its XP twice over, into [xp] and into [cumulativeXp], and
    ends with a fresh completed row with [progress = 1]. *)
Theorem complete_again_after_delete
    (t1 t2 t3 : Z) (q reason : string) (quest : Quest) (p : Profile) (db : Db) :
  quests db !! q = Some quest →
  profile db = Some p →
  inactive db q →
  (∀ a, targetOf quest = Some a → allowed a = true) →
  let db4 := calls [CallComplete t1 q; CallArchive t2 q reason;
                    CallDeleteArchived q; CallComplete t3 q] db in
  column xp db4 = Some (xp p + 2 * xpOf quest) ∧
  column cumulativeXp db4 = Some (cumulativeXp p + 2 * xpOf quest) ∧
  questProgress db4 !! q = Some (completionRow t3 None).
Proof.
  intros Hq Hp Hin Hal db4. unfold db4, calls, call. cbn [foldl].
  unfold state_after, column.
  destruct (complete_step t1 q quest p db Hq Hp Hin Hal)
    as (u & db1 & Hu & Hc & Hp1 & Hq1 & Hr1).
  rewrite Hc. cbn [fst].
  set (row := completionRow t1 (questProgress db !! q)) in *.
  assert (Hrow : questProgress db1 !! q = Some row)
    by (rewrite Hr1; apply lookup_insert_eq).
  rewrite (archiveQuest_present t2 q reason row db1 Hrow). cbn [fst].
  rewrite (deleteArchivedQuest_archived q (archivedRow t2 reason row));
    [|apply lookup_insert_eq|done].
  cbn [fst questProgress set_questProgress].
  set (db3 := set_questProgress _ _).
  assert (Hr3 : questProgress db3 !! q = None).
  { unfold db3. cbn. apply lookup_delete_eq. }
  assert (Hin3 : inactive db3 q) by (unfold inactive; by rewrite Hr3).
  destruct (complete_step t3 q quest (applyUpdates u p) db3)
    as (u3 & db4' & Hu3 & Hc3 & Hp3 & Hq3 & Hr4); try done.
  { unfold db3. cbn. by rewrite Hq1. }
  rewrite Hc3. cbn [fst]. rewrite Hp3, Hr4, Hr3.
  destruct (completionUpdates_effect _ _ _ Hu) as (Hx1 & _ & Hc1 & _).
  destruct (completionUpdates_effect _ _ _ Hu3) as (Hx3 & _ & Hc3' & _).
  cbn [fmap option_fmap option_map]. rewrite Hx3, Hc3', Hx1, Hc1.
  rewrite lookup_insert_eq.
  repeat split; f_equal; lia.
Qed.

Lemma complete_again_after_delete_witness :
  column xp (calls [CallComplete 5 "q"; CallArchive 6 "q" "done";
                    CallDeleteArchived "q"; CallComplete 7 "q"] freshDb)
    = Some 200.
Proof.
  apply (proj1 (complete_again_after_delete 5 6 7 "q" "done" mentalQuest
                  defaultProfile freshDb eq_refl eq_refl I
                  ltac:(by intros a [= <-]))).
Defined.

(** X9. Cancel does not look at the archive flag.  Where its UPDATE of
    the profile is accepted (the quest pays no points to a target
    attribute, or there is no profile row), cancelling a completion that
    is archived succeeds and leaves a row that is not completed yet still
    archived, with its archive fields as they were; that row is on
    neither list of the archive page, and DeleteArchived still removes
    it, resolving to [false].  Where the UPDATE is rejected Cancel throws
    and the row stays completed and archived. *)
Theorem cancel_keeps_archive (q : string) (quest : Quest) (r : QuestProgress) (db : Db) :
  quests db !! q = Some quest →
  questProgress db !! q = Some r →
  completed r = true → isArchived r = true →
  (paysTarget quest = false ∨ profile db = None →
   ∃ db1 r1,
     cancelQuestCompletion q db = (db1, Ok (Some r1)) ∧
     questProgress db1 !! q = Some r1 ∧
     completed r1 = false ∧ isArchived r1 = true ∧
     archivedAt r1 = archivedAt r ∧ archiveReason r1 = archiveReason r ∧
     (∀ rows, (r1 ∉ getCompletedQuests rows) ∧ (r1 ∉ getArchivedQuests rows)) ∧
     deleteArchivedQuest q db1
       = (set_questProgress (delete q (questProgress db1)) db1, Ok false)) ∧
  (paysTarget quest = true → is_Some (profile db) →
   cancelQuestCompletion q db = (db, Err InvalidTextRepresentation)).
Proof.
  intros Hq Hr Hc Ha.
  rewrite (cancelQuestCompletion_completed q quest r db Hq Hr Hc). cbn zeta.
  split.
  - intros Hok.
    assert (∃ db1,
      match profile db with
      | Some cur =>
          match cancellationUpdates quest cur with
          | Ok u =>
              (set_profile (Some (applyUpdates u cur))
                 (set_questProgress (<[q := resetCompletion r]> (questProgress db)) db),
               Ok (Some (resetCompletion r)))
          | Err e => (db, Err e)
          end
      | None =>
          (set_questProgress (<[q := resetCompletion r]> (questProgress db)) db,
           Ok (Some (resetCompletion r)))
      end = (db1, Ok (Some (resetCompletion r))) ∧
      questProgress db1 = <[q := resetCompletion r]> (questProgress db))
      as (db1 & -> & Hrows).
    { destruct (profile db) as [cur|] eqn:Hp.
      - destruct Hok as [Hpay|]; [|done].
        destruct (cancellationUpdates_accepted quest cur Hpay) as [u ->].
        by eexists.
      - by eexists. }
    exists db1, (resetCompletion r). split; [done|].
    rewrite Hrows, lookup_insert_eq. repeat split; try done.
    + unfold getCompletedQuests. rewrite list_elem_of_In, filter_In.
      by intros [_ H].
    + unfold getArchivedQuests. rewrite list_elem_of_In, filter_In.
      by intros [_ H].
    + rewrite <- Hrows.
      apply (deleteArchivedQuest_archived q (resetCompletion r));
        [rewrite Hrows; apply lookup_insert_eq|done].
  - intros Hpay [cur ->]. by rewrite cancellationUpdates_rejected.
Qed.

Lemma cancel_keeps_archive_witness :
  let db := calls [CallComplete 5 "r"; CallArchive 6 "r" "done"] freshDb in
  (isArchived <$> questProgress (call (CallCancel "r") db) !! "r") = Some true ∧
  (completed <$> questProgress (call (CallCancel "r") db) !! "r") = Some false.
Proof.
  intros db.
  destruct (questProgress db !! "r") as [r|] eqn:Hr; [|by vm_compute in Hr].
  assert (Hd0 : completed r = true ∧ isArchived r = true).
  { vm_compute in Hr. by simplify_eq. }
  destruct (proj1 (cancel_keeps_archive "r" genericQuest r db eq_refl Hr
                     (proj1 Hd0) (proj2 Hd0)) (or_introl eq_refl))
    as (db1 & r1 & Hc & Hr1 & Hd & Ha & _).
  unfold call. rewrite Hc. unfold state_after. cbn [fst].
  rewrite Hr1. cbn. by rewrite Ha, Hd.
Defined.

(** *** Deleting quests and groups *)

(** X10. [deleteQuest] never throws: it removes the progress row of the
    quest and then the quest, and nothing else.  Afterwards neither the
    quest nor its row can be found, while the profile is untouched, so
    whatever a completed quest had paid stays paid. *)
Theorem deleteQuest_effect (id : string) (db : Db) :
  (∃ deleted, outcome (deleteQuest id db) = Ok deleted) ∧
  state_after (deleteQuest id db)
    = mkDb (profile db) (questGroups db)
        (delete id (quests db)) (delete id (questProgress db)) ∧
  outcome (getQuest id (state_after (deleteQuest id db))) = Ok None ∧
  outcome (getQuestProgress id (state_after (deleteQuest id db))) = Ok None.
Proof.
  assert (Hstate : (∃ deleted, outcome (deleteQuest id db) = Ok deleted) ∧
    state_after (deleteQuest id db)
      = mkDb (profile db) (questGroups db)
          (delete id (quests db)) (delete id (questProgress db))).
  { unfold deleteQuest, bind, deleteProgress, deleteQuestRow, ret,
      referenced_quest, state_after, outcome.
    destruct (questProgress db !! id) as [r|] eqn:Hr;
      cbn [quests questProgress set_questProgress set_quests fst snd].
    - destruct (quests db !! id) as [quest|] eqn:Hq.
      + rewrite bool_decide_eq_false_2; [by eauto|].
        rewrite lookup_delete_eq. by intros [? ?].
      + cbn. split; [by eauto|]. unfold set_questProgress.
        by rewrite (delete_id (quests db)).
    - destruct (quests db !! id) as [quest|] eqn:Hq.
      + rewrite bool_decide_eq_false_2; [|rewrite Hr; by intros [? ?]].
        cbn. split; [by eauto|]. unfold set_quests. cbn.
        by rewrite (delete_id (questProgress db)).
      + cbn. split; [by eauto|].
        rewrite (delete_id (quests db)), (delete_id (questProgress db)) by done.
        by rewrite db_eta. }
  destruct Hstate as [Hok Hst]. split; [done|]. split; [done|].
  rewrite Hst. unfold outcome, getQuest, getQuestProgress, selectQuest,
    selectProgress. cbn. by rewrite !lookup_delete_eq.
Qed.

(** X11. When no quest of the group has a progress row,
    [deleteQuestGroup] removes the group and every quest of the group
    and nothing else: the other quests, the progress rows and the
    profile are as before, and looking up a removed quest finds
    nothing. *)
Theorem deleteQuestGroup_cascade (g : string) (db : Db) :
  (∀ k quest, quests db !! k = Some quest → groupId quest = Some g →
              questProgress db !! k = None) →
  (∃ deleted, outcome (deleteQuestGroup g db) = Ok deleted) ∧
  let db' := state_after (deleteQuestGroup g db) in
  questGroups db' = delete g (questGroups db) ∧
  questProgress db' = questProgress db ∧
  profile db' = profile db ∧
  ∀ k quest, quests db !! k = Some quest →
    (groupId quest = Some g → outcome (getQuest k db') = Ok None) ∧
    (groupId quest ≠ Some g → outcome (getQuest k db') = Ok (Some quest)).
Proof.
  intros Hfree.
  destruct (deleteQuestGroup_without_progress g db Hfree)
    as (b & db' & Hd & Hg & Hqs & Hpr & Hp & Hgone).
  rewrite Hd. unfold state_after, outcome. cbn [fst snd].
  split; [by eauto|]. repeat split; try done.
  - by apply (Hgone k quest).
  - intros Hne. unfold getQuest, selectQuest. cbn. rewrite Hqs. f_equal.
    by apply map_lookup_filter_Some.
Qed.

Lemma deleteQuestGroup_cascade_witness :
  outcome (getQuest "q" (state_after (deleteQuestGroup "g" freshDb))) = Ok None ∧
  questGroups (state_after (deleteQuestGroup "g" freshDb)) !! "g" = None.
Proof.
  destruct (deleteQuestGroup_cascade "g" freshDb) as [_ (Hg & _ & _ & Hq)].
  { intros k quest _ _. reflexivity. }
  split.
  - by apply (proj1 (Hq "q" mentalQuest eq_refl)).
  - rewrite Hg. apply lookup_delete_eq.
Defined.

(** X12. As soon as one quest of the group has a progress row,
    [deleteQuestGroup] is refused by the foreign key of the progress
    table and deletes nothing, and [DELETE /api/quest-groups/:id]
    answers 500. *)
Theorem deleteQuestGroup_refused
    (g k : string) (quest : Quest) (r : QuestProgress) (db : Db) :
  quests db !! k = Some quest → groupId quest = Some g →
  questProgress db !! k = Some r →
  deleteQuestGroup g db = (db, Err ForeignKeyViolation) ∧
  deleteQuestGroupById g db = (db, Failure 500 "Failed to delete quest group").
Proof.
  intros Hk Hg Hr.
  assert (Hd : deleteQuestGroup g db = (db, Err ForeignKeyViolation)).
  { unfold deleteQuestGroup, bind, deleteQuestsOfGroup.
    rewrite bool_decide_eq_true_2; [done|].
    exists k, quest. split; [by apply map_lookup_filter_Some|by eexists]. }
  split; [done|]. unfold deleteQuestGroupById. by rewrite Hd.
Qed.

Lemma deleteQuestGroup_refused_witness :
  let db := calls [CallComplete 5 "q"] freshDb in
  deleteQuestGroupById "g" db = (db, Failure 500 "Failed to delete quest group").
Proof.
  intros db.
  destruct (questProgress db !! "q") as [r|] eqn:Hr; [|by vm_compute in Hr].
  apply (proj2 (deleteQuestGroup_refused "g" "q" mentalQuest r db
                  eq_refl eq_refl Hr)).
Defined.

(** X22. The three delete methods never resolve to [true]: the result
    of the driver carries no [rowCount].  So
    [DELETE /api/quest-groups/:id] answers 404 'Quest group not found'
    also when it has just deleted the group and its quests. *)
Theorem delete_resolves_false (id : string) (db : Db) :
  (∀ deleted, outcome (deleteQuest id db) = Ok deleted → deleted = false) ∧
  (∀ deleted, outcome (deleteQuestGroup id db) = Ok deleted → deleted = false) ∧
  (∀ deleted, outcome (deleteArchivedQuest id db) = Ok deleted →
     deleted = false) ∧
  ((∀ k quest, quests db !! k = Some quest → groupId quest = Some id →
               questProgress db !! k = None) →
   response (deleteQuestGroupById id db) = Failure 404 "Quest group not found" ∧
   questGroups (db_after (deleteQuestGroupById id db))
     = delete id (questGroups db) ∧
   ∀ k quest, quests db !! k = Some quest → groupId quest = Some id →
     quests (db_after (deleteQuestGroupById id db)) !! k = None).
Proof.
  assert (Hgroup : ∀ deleted,
            outcome (deleteQuestGroup id db) = Ok deleted → deleted = false).
  { intros deleted. unfold deleteQuestGroup, bind, ret, outcome.
    destruct (deleteQuestsOfGroup id db) as [db1 [r1|e1]]; [|discriminate].
    destruct (deleteGroupRow id db1) as [db2 [r2|e2]]; [|discriminate].
    by intros [= <-]. }
  split; [|split; [done|split]].
  - intros deleted. unfold deleteQuest, bind, ret, outcome.
    destruct (deleteProgress id db) as [db1 [r1|e1]]; [|discriminate].
    destruct (deleteQuestRow id db1) as [db2 [r2|e2]]; [|discriminate].
    by intros [= <-].
  - intros deleted. unfold deleteArchivedQuest, bind, ret, outcome, throw.
    destruct (getQuestProgress id db) as [db1 [r1|e1]]; [|discriminate].
    destruct (negb _); [discriminate|].
    destruct (deleteProgress id db1) as [db2 [r2|e2]]; [|discriminate].
    by intros [= <-].
  - intros Hfree.
    destruct (deleteQuestGroup_without_progress id db Hfree)
      as (b & db' & Hd & Hg & Hqs & _ & _ & _).
    assert (b = false) as ->.
    { apply Hgroup. unfold outcome. by rewrite Hd. }
    unfold response, db_after, deleteQuestGroupById. rewrite Hd.
    cbn [negb fst snd]. split; [done|]. split; [done|].
    intros k quest Hk Hgk. rewrite Hqs. apply map_lookup_filter_None. right.
    intros quest' Hk' Hne. simpl in Hne. congruence.
Qed.

Lemma delete_resolves_false_witness :
  response (deleteQuestGroupById "g" freshDb)
    = Failure 404 "Quest group not found" ∧
  questGroups (db_after (deleteQuestGroupById "g" freshDb)) !! "g" = None ∧
  quests (db_after (deleteQuestGroupById "g" freshDb)) !! "q" = None.
Proof.
  destruct (proj2 (proj2 (proj2 (delete_resolves_false "g" freshDb))))
    as (Hr & Hg & Hq).
  { intros k quest _ _. reflexivity. }
  split; [exact Hr|]. split.
  - rewrite Hg. apply lookup_delete_eq.
  - exact (Hq "q" mentalQuest eq_refl eq_refl).
Defined.

(** *** The profile under any call *)

Lemma completeQuest_cases (now : Z) (q : string) (db : Db) :
  state_after (completeQuest now q db) = db ∨
  (∃ quest, quests db !! q = Some quest ∧
     profile (state_after (completeQuest now q db)) = profile db) ∨
  (∃ quest p u, quests db !! q = Some quest ∧ profile db = Some p ∧
     completionUpdates quest p = Ok u ∧
     profile (state_after (completeQuest now q db)) = Some (applyUpdates u p)).
Proof.
  destruct (quests db !! q) as [quest|] eqn:Hq;
    [|left; unfold_store; by rewrite Hq].
  rewrite (completeQuest_known now q quest db Hq). cbn zeta.
  destruct (wasJustCompleted _ _); [|right; left; by exists quest].
  destruct (profile db) as [p|] eqn:Hp; [|right; left; by exists quest].
  destruct (completionUpdates quest p) as [u|e] eqn:Hu; [|by left].
  right. right. by exists quest, p, u.
Qed.

Lemma cancelQuestCompletion_cases (q : string) (db : Db) :
  state_after (cancelQuestCompletion q db) = db ∨
  (∃ quest, quests db !! q = Some quest ∧ profile db = None ∧
     profile (state_after (cancelQuestCompletion q db)) = None) ∨
  (∃ quest p u, quests db !! q = Some quest ∧ profile db = Some p ∧
     cancellationUpdates quest p = Ok u ∧
     profile (state_after (cancelQuestCompletion q db)) = Some (applyUpdates u p)).
Proof.
  destruct (quests db !! q) as [quest|] eqn:Hq;
    [|left; unfold_store; by rewrite Hq].
  destruct (questProgress db !! q) as [r|] eqn:Hr;
    [|left; unfold_store; rewrite Hq; simpl; by rewrite Hr].
  destruct (completed r) eqn:Hc;
    [|left; unfold_store; rewrite Hq; simpl; rewrite Hr; simpl; by rewrite Hc].
  rewrite (cancelQuestCompletion_completed q quest r db Hq Hr Hc). cbn zeta.
  destruct (profile db) as [p|] eqn:Hp; [|right; left; by exists quest].
  destruct (cancellationUpdates quest p) as [u|e] eqn:Hu; [|by left].
  right. right. by exists quest, p, u.
Qed.

Lemma undoQuestCompletion_cases (q : string) (db : Db) :
  state_after (undoQuestCompletion q db) = db ∨
  (∃ quest, quests db !! q = Some quest ∧ profile db = None ∧
     profile (state_after (undoQuestCompletion q db)) = None) ∨
  (∃ quest p u, quests db !! q = Some quest ∧ profile db = Some p ∧
     undoUpdates quest p = Ok u ∧
     profile (state_after (undoQuestCompletion q db)) = Some (applyUpdates u p)).
Proof.
  destruct (quests db !! q) as [quest|] eqn:Hq;
    [|left; unfold_store; by rewrite Hq].
  destruct (questProgress db !! q) as [r|] eqn:Hr;
    [|left; unfold_store; rewrite Hq; simpl; by rewrite Hr].
  destruct (completed r) eqn:Hc;
    [|left; unfold_store; rewrite Hq; simpl; rewrite Hr; simpl; by rewrite Hc].
  rewrite (undoQuestCompletion_completed q quest r db Hq Hr Hc). cbn zeta.
  destruct (profile db) as [p|] eqn:Hp; [|right; left; by exists quest].
  destruct (undoUpdates quest p) as [u|e] eqn:Hu; [|by left].
  right. right. by exists quest, p, u.
Qed.

Lemma call_levelDerived (c : Call) (db : Db) :
  levelDerived db → levelDerived (call c db).
Proof.
  intros Hl. destruct (ledgerCall c) eqn:Hc.
  - destruct c as [now q|q|now q reason|q|q|q]; try discriminate Hc; cbn [call].
    + destruct (completeQuest_cases now q db)
        as [->|[(quest & _ & Hp)|(quest & p & u & _ & Hp & Hu & Hp')]];
        [done|intros p'; rewrite Hp; apply Hl|].
      intros p'. rewrite Hp'. intros [= <-].
      destruct (completionUpdates_effect _ _ _ Hu) as (Hx & Hlv & _).
      by rewrite Hx, Hlv.
    + destruct (cancelQuestCompletion_cases q db)
        as [->|[(quest & _ & _ & Hp)|(quest & p & u & _ & Hp & Hu & Hp')]];
        [done|intros p'; by rewrite Hp|].
      intros p'. rewrite Hp'. intros [= <-].
      destruct (cancellationUpdates_effect _ _ _ Hu) as (Hx & Hlv & _).
      by rewrite Hx, Hlv.
    + destruct (undoQuestCompletion_cases q db)
        as [->|[(quest & _ & _ & Hp)|(quest & p & u & _ & Hp & Hu & Hp')]];
        [done|intros p'; by rewrite Hp|].
      intros p'. rewrite Hp'. intros [= <-].
      destruct (undoUpdates_effect _ _ _ Hu) as (Hx & Hlv & _).
      rewrite Hx, Hlv. by apply Hl.
  - intros p'.
    destruct (archive_call_cases c db Hc)
      as [->|[(r & r' & _ & _ & _ & _ & ->)|(r & _ & _ & ->)]]; apply Hl.
Qed.

(** X13. The stored level always agrees with the stored XP: if
    [level = floor(xp / 800) + 1] holds of the profile (as it does of the
    default profile), it holds after every sequence of engine calls,
    whatever the rewards of the quests are. *)
Theorem level_follows_xp (cs : list Call) (db : Db) :
  levelDerived db → levelDerived (calls cs db).
Proof.
  revert db. induction cs as [|c cs IH]; intros db Hl; [done|].
  cbn. apply IH. by apply call_levelDerived.
Qed.

Lemma level_follows_xp_witness :
  levelDerived (calls [CallComplete 5 "r"; CallComplete 6 "q"; CallCancel "q";
                       CallArchive 7 "r" "done"; CallUndo "r"] freshDb).
Proof.
  apply level_follows_xp. intros p [= <-]. reflexivity.
Defined.

(** X14. A completion made while there is no profile row is recorded
    but credits nothing and creates no profile, whatever the target
    attribute of the quest.  Once [getProfile] has created the default
    profile, cancelling that completion debits it all the same where the
    quest pays no points to a target attribute: [availablePoints] ends
    at minus the generic points of the quest.  Where the quest pays
    points to a target attribute the Cancel throws and changes
    nothing. *)
Theorem complete_without_profile (now : Z) (q : string) (quest : Quest) (db : Db) :
  profile db = None →
  quests db !! q = Some quest →
  inactive db q →
  let db1 := state_after (completeQuest now q db) in
  let db2 := state_after (getProfile db1) in
  let db3 := state_after (cancelQuestCompletion q db2) in
  profile db1 = None ∧
  (completed <$> questProgress db1 !! q) = Some true ∧
  profile db2 = Some defaultProfile ∧
  (paysTarget quest = false →
   column availablePoints db3 = Some (- genericPoints quest) ∧
   column xp db3 = Some (Z.max 0 (- xpOf quest)) ∧
   (completed <$> questProgress db3 !! q) = Some false) ∧
  (paysTarget quest = true →
   cancelQuestCompletion q db2 = (db2, Err InvalidTextRepresentation) ∧
   db3 = db2).
Proof.
  intros Hp Hq Hin db1 db2 db3.
  assert (Hdb1 : db1 = set_questProgress
            (<[q := completionRow now (questProgress db !! q)]> (questProgress db)) db).
  { unfold db1. rewrite (completeQuest_inactive now q quest db Hq Hin).
    cbn zeta. by rewrite Hp. }
  assert (Hp1 : profile db1 = None) by (by rewrite Hdb1).
  assert (Hdb2 : db2 = set_profile (Some defaultProfile) db1).
  { unfold db2, getProfile. by rewrite Hp1. }
  assert (Hr2 : questProgress db2 !! q
                = Some (completionRow now (questProgress db !! q))).
  { rewrite Hdb2, Hdb1. cbn. apply lookup_insert_eq. }
  assert (Hq2 : quests db2 !! q = Some quest) by (by rewrite Hdb2, Hdb1).
  assert (Hp2 : profile db2 = Some defaultProfile) by (by rewrite Hdb2).
  pose proof (cancelQuestCompletion_completed q quest _ db2 Hq2 Hr2
                (completionRow_resting _ _)) as Hcancel.
  cbn zeta in Hcancel. rewrite Hp2 in Hcancel.
  split; [done|]. split.
  { rewrite Hdb1. cbn. rewrite lookup_insert_eq. cbn.
    by rewrite completionRow_resting. }
  split; [done|]. split.
  - intros Hpay.
    destruct (cancellationUpdates_accepted quest defaultProfile Hpay) as [u Hu].
    rewrite Hu in Hcancel.
    destruct (cancellationUpdates_effect _ _ _ Hu) as (Hx & _ & _ & Ha & _).
    unfold db3. rewrite Hcancel. unfold state_after, column.
    cbn [fst profile set_profile questProgress set_questProgress
         fmap option_fmap option_map].
    rewrite Hx, Ha. cbn [xp availablePoints defaultProfile].
    rewrite bool_decide_eq_false_2.
    + rewrite lookup_insert_eq. repeat split; f_equal; lia.
    + change (levelForXp 0) with 1.
      pose proof (levelForXp_pos (Z.max 0 (0 - xpOf quest)) ltac:(lia)). lia.
  - intros Hpay. rewrite (cancellationUpdates_rejected _ _ Hpay) in Hcancel.
    unfold db3. by rewrite Hcancel.
Qed.

Lemma complete_without_profile_witness :
  column availablePoints
    (state_after (cancelQuestCompletion "r"
       (state_after (getProfile (state_after (completeQuest 5 "r" unprofiledDb))))))
    = Some (-3).
Proof.
  destruct (complete_without_profile 5 "r" genericQuest unprofiledDb
              eq_refl eq_refl I)
    as (_ & _ & _ & Hdebit & _).
  exact (proj1 (Hdebit eq_refl)).
Defined.

Lemma retarget_other (quest : Quest) (f : Z → Z → Z) (attrs : gmap string Z)
    (k : string) :
  targetOf quest ≠ Some k → retarget quest f attrs !! k = attrs !! k.
Proof.
  intros Hk. unfold retarget.
  destruct (pointsOf quest); [|done]. destruct (targetOf quest) as [a|]; [|done].
  rewrite lookup_insert_ne; [done|congruence].
Qed.

(** X15. A call changes no attribute but the target attribute of its
    quest: every other key of the attributes object reads the same
    before and after, for each of the six calls, whether it succeeds or
    throws. *)
Theorem other_attributes_untouched (c : Call) (k : string) (db : Db) :
  (∀ quest, quests db !! questOf c = Some quest → targetOf quest ≠ Some k) →
  column (λ p, attributes p !! k) (call c db)
    = column (λ p, attributes p !! k) db.
Proof.
  intros Hk. unfold column. destruct (ledgerCall c) eqn:Hc.
  - destruct c as [now q|q|now q reason|q|q|q]; try discriminate Hc;
      cbn [call questOf] in *.
    + destruct (completeQuest_cases now q db)
        as [->|[(quest & _ & ->)|(quest & p & u & Hq & Hp & Hu & ->)]];
        [done|done|].
      rewrite Hp. cbn [fmap option_fmap option_map]. f_equal.
      destruct (completionUpdates_effect _ _ _ Hu) as (_ & _ & _ & _ & ->).
      by apply retarget_other, Hk.
    + destruct (cancelQuestCompletion_cases q db)
        as [->|[(quest & _ & -> & ->)|(quest & p & u & Hq & Hp & Hu & ->)]];
        [done|done|].
      rewrite Hp. cbn [fmap option_fmap option_map]. f_equal.
      by destruct (cancellationUpdates_effect _ _ _ Hu) as (_ & _ & _ & _ & ->).
    + destruct (undoQuestCompletion_cases q db)
        as [->|[(quest & _ & -> & ->)|(quest & p & u & Hq & Hp & Hu & ->)]];
        [done|done|].
      rewrite Hp. cbn [fmap option_fmap option_map]. f_equal.
      destruct (undoUpdates_effect _ _ _ Hu) as (_ & _ & _ & _ & ->).
      by apply retarget_other, Hk.
  - by destruct (archive_call_cases c db Hc)
      as [->|[(r & r' & _ & _ & _ & _ & ->)|(r & _ & _ & ->)]].
Qed.

Lemma other_attributes_untouched_witness :
  column (λ p, attributes p !! "social") (call (CallComplete 5 "q") freshDb)
    = Some (Some 10).
Proof.
  rewrite (other_attributes_untouched (CallComplete 5 "q") "social" freshDb).
  - reflexivity.
  - intros quest [= <-]. by vm_compute.
Defined.

(** *** What a successful call returns *)

(** X16. What a successful call returns describes the row now stored
    for the quest, so Cancel, Undo and Archive never return [undefined].
    Complete returns the projection of the stored row, which is
    completed, together with [wasJustCompleted]; Cancel, Undo and Archive
    return the stored row itself.  After Cancel and Undo it has
    [completed = false], [progress = 0] and no [completedAt], and after
    Undo it is not archived either; after Archive it is archived at the
    time of the call for the reason given. *)
Theorem returned_row_is_stored (db db1 : Db) (q : string) :
  (∀ now row, completeQuest now q db = (db1, Ok row) →
     ∃ stored, questProgress db1 !! q = Some stored ∧
       completed stored = true ∧
       row = {| Returned.questId := q;
                Returned.progress := progress stored;
                Returned.completed := completed stored;
                Returned.completedAt := completedAt stored;
                Returned.wasJustCompleted :=
                  bool_decide (completedAt stored = Some now) |}) ∧
  (∀ res, cancelQuestCompletion q db = (db1, Ok res) →
     ∃ row, res = Some row ∧ questProgress db1 !! q = Some row ∧
       completed row = false ∧ progress row = 0 ∧ completedAt row = None) ∧
  (∀ res, undoQuestCompletion q db = (db1, Ok res) →
     ∃ row, res = Some row ∧ questProgress db1 !! q = Some row ∧
       completed row = false ∧ progress row = 0 ∧ completedAt row = None ∧
       isArchived row = false ∧ archivedAt row = None ∧
       archiveReason row = None) ∧
  (∀ now reason res, archiveQuest now q reason db = (db1, Ok res) →
     ∃ row, res = Some row ∧ questProgress db1 !! q = Some row ∧
       isArchived row = true ∧ archivedAt row = Some now ∧
       archiveReason row = Some reason).
Proof.
  split; [|split; [|split]].
  - intros now row. destruct (quests db !! q) as [quest|] eqn:Hq;
      [|unfold_store; rewrite Hq; simpl; discriminate].
    rewrite (completeQuest_known now q quest db Hq). cbn zeta.
    assert (Hdone := completionRow_resting now (questProgress db !! q)).
    destruct (wasJustCompleted now (completionRow now (questProgress db !! q)))
      eqn:Hw.
    + destruct (profile db) as [p|].
      * destruct (completionUpdates quest p); [|discriminate].
        intros [= <- <-]. eexists. cbn. by rewrite lookup_insert_eq.
      * intros [= <- <-]. eexists. cbn. by rewrite lookup_insert_eq.
    + intros [= <- <-]. eexists. cbn. by rewrite lookup_insert_eq.
  - intros res Hc. apply cancelQuestCompletion_success in Hc
      as (quest & r & _ & _ & _ & -> & _ & _ & -> & _).
    exists (resetCompletion r). by rewrite lookup_insert_eq.
  - intros res Hc. apply undoQuestCompletion_success in Hc
      as (quest & r & _ & _ & _ & -> & _ & _ & ->).
    exists (resetAll r). by rewrite lookup_insert_eq.
  - intros now reason res.
    destruct (questProgress db !! q) as [r|] eqn:Hr.
    + rewrite (archiveQuest_present now q reason r db Hr).
      intros [= <- <-]. exists (archivedRow now reason r).
      cbn. by rewrite lookup_insert_eq.
    + by rewrite (archiveQuest_absent now q reason db Hr).
Qed.

Lemma returned_row_is_stored_witness :
  ∃ db1 row stored, completeQuest 5 "q" freshDb = (db1, Ok row) ∧
    questProgress db1 !! "q" = Some stored ∧ completed stored = true ∧
    Returned.progress row = progress stored ∧
    Returned.wasJustCompleted row = bool_decide (completedAt stored = Some 5).
Proof.
  destruct (completeQuest 5 "q" freshDb) as [db1 [row|e]] eqn:Hc;
    [|by vm_compute in Hc].
  destruct (proj1 (returned_row_is_stored freshDb db1 "q") 5 row Hc)
    as (stored & Hs & Hd & ->).
  exists db1. do 2 eexists. split; [done|]. split; [exact Hs|]. by split.
Defined.

(** *** The routes *)

Lemma message_invalid_target (a : string) :
  message (InvalidTargetAttribute a) ≠ "Quest not found" ∧
  message (InvalidTargetAttribute a) ≠ "Quest not completed".
Proof. split; intros H; cbn in H; discriminate H. Qed.

Lemma completeQuest_error (now : Z) (q : string) (db db1 : Db) (e : StorageError) :
  completeQuest now q db = (db1, Err e) →
  db1 = db ∧
  ((quests db !! q = None ∧ e = QuestNotFound) ∨
   (is_Some (quests db !! q) ∧ ∃ a, e = InvalidTargetAttribute a)).
Proof.
  destruct (quests db !! q) as [quest|] eqn:Hq.
  - rewrite (completeQuest_known now q quest db Hq). cbn zeta.
    destruct (wasJustCompleted _ _); [|discriminate].
    destruct (profile db) as [p|]; [|discriminate].
    destruct (completionUpdates quest p) as [u|e'] eqn:Hu; [discriminate|].
    intros [= <- <-]. split; [done|]. right. split; [by eexists|].
    destruct (completionUpdates_error _ _ _ Hu) as (a & _ & _ & _ & ->). eauto.
  - unfold_store. rewrite Hq. simpl. intros [= <- <-]. by eauto.
Qed.

Lemma cancelQuestCompletion_error (q : string) (db db1 : Db) (e : StorageError) :
  cancelQuestCompletion q db = (db1, Err e) →
  db1 = db ∧
  ((quests db !! q = None ∧ e = QuestNotFound) ∨
   (is_Some (quests db !! q) ∧ inactive db q ∧ e = QuestNotCompleted) ∨
   (∃ quest r, quests db !! q = Some quest ∧ questProgress db !! q = Some r ∧
      completed r = true ∧ paysTarget quest = true ∧ is_Some (profile db) ∧
      e = InvalidTextRepresentation)).
Proof.
  unfold inactive.
  destruct (quests db !! q) as [quest|] eqn:Hq;
    [|unfold_store; rewrite Hq; simpl; intros [= <- <-]; by eauto].
  destruct (questProgress db !! q) as [r|] eqn:Hr;
    [|unfold_store; rewrite Hq; simpl; rewrite Hr; simpl;
      intros [= <- <-]; by eauto 10].
  destruct (completed r) eqn:Hc;
    [|unfold_store; rewrite Hq; simpl; rewrite Hr; simpl; rewrite Hc; simpl;
      intros [= <- <-]; by eauto 10].
  rewrite (cancelQuestCompletion_completed q quest r db Hq Hr Hc). cbn zeta.
  destruct (profile db) as [p|]; [|discriminate].
  destruct (cancellationUpdates quest p) as [u|e'] eqn:Hu; [discriminate|].
  intros [= <- <-]. split; [done|]. right. right.
  destruct (cancellationUpdates_error _ _ _ Hu) as [Hpay ->].
  exists quest, r. by eauto 10.
Qed.

Lemma undoQuestCompletion_error (q : string) (db db1 : Db) (e : StorageError) :
  undoQuestCompletion q db = (db1, Err e) →
  db1 = db ∧
  ((quests db !! q = None ∧ e = QuestNotFound) ∨
   (is_Some (quests db !! q) ∧ inactive db q ∧ e = QuestNotCompleted) ∨
   (is_Some (quests db !! q) ∧ ¬ inactive db q ∧
    ∃ a, e = InvalidTargetAttribute a)).
Proof.
  unfold inactive.
  destruct (quests db !! q) as [quest|] eqn:Hq;
    [|unfold_store; rewrite Hq; simpl; intros [= <- <-]; by eauto].
  destruct (questProgress db !! q) as [r|] eqn:Hr;
    [|unfold_store; rewrite Hq; simpl; rewrite Hr; simpl;
      intros [= <- <-]; by eauto 10].
  destruct (completed r) eqn:Hc;
    [|unfold_store; rewrite Hq; simpl; rewrite Hr; simpl; rewrite Hc; simpl;
      intros [= <- <-]; by eauto 10].
  rewrite (undoQuestCompletion_completed q quest r db Hq Hr Hc). cbn zeta.
  destruct (profile db) as [p|]; [|discriminate].
  destruct (undoUpdates quest p) as [u|e'] eqn:Hu; [discriminate|].
  intros [= <- <-]. split; [done|]. right. right.
  split; [by eexists|]. split; [done|].
  destruct (undoUpdates_error _ _ _ Hu) as (a & _ & _ & _ & ->). eauto.
Qed.

Lemma archiveQuest_error (now : Z) (q reason : string) (db db1 : Db) (e : StorageError) :
  archiveQuest now q reason db = (db1, Err e) →
  db1 = db ∧ questProgress db !! q = None ∧ e = QuestProgressNotFound.
Proof.
  destruct (questProgress db !! q) as [r|] eqn:Hr.
  - by rewrite (archiveQuest_present now q reason r db Hr).
  - rewrite (archiveQuest_absent now q reason db Hr). by intros [= <- <-].
Qed.

Lemma deleteArchivedQuest_error (q : string) (db db1 : Db) (e : StorageError) :
  deleteArchivedQuest q db = (db1, Err e) →
  db1 = db ∧ e = QuestNotArchived ∧
  default false (isArchived <$> questProgress db !! q) = false.
Proof.
  destruct (default false (isArchived <$> questProgress db !! q)) eqn:Ha.
  - destruct (questProgress db !! q) as [r|] eqn:Hr; [|done].
    by rewrite (deleteArchivedQuest_archived q r db Hr Ha).
  - rewrite (deleteArchivedQuest_refused q db Ha). by intros [= <- <-].
Qed.

(** X17. A request to one of the five quest routes (complete, cancel,
    archive, delete-archive, undo) that is not answered 200 has changed
    nothing in the database. *)
Theorem failed_request_changes_nothing
    (now : Z) (q : string) (reason : option string) (db : Db) :
  (status (response (postQuestComplete now q db)) ≠ 200 →
     db_after (postQuestComplete now q db) = db) ∧
  (status (response (postQuestCancel q db)) ≠ 200 →
     db_after (postQuestCancel q db) = db) ∧
  (status (response (postQuestArchive now q reason db)) ≠ 200 →
     db_after (postQuestArchive now q reason db) = db) ∧
  (status (response (deleteQuestArchive q db)) ≠ 200 →
     db_after (deleteQuestArchive q db) = db) ∧
  (status (response (postQuestUndo q db)) ≠ 200 →
     db_after (postQuestUndo q db) = db).
Proof.
  unfold db_after, response.
  split; [|split; [|split; [|split]]].
  - unfold postQuestComplete.
    destruct (completeQuest now q db) as [db1 [row|e]] eqn:Hc; [done|].
    apply completeQuest_error in Hc as [-> _]. intros _. by case_bool_decide.
  - unfold postQuestCancel.
    destruct (cancelQuestCompletion q db) as [db1 [row|e]] eqn:Hc; [done|].
    apply cancelQuestCompletion_error in Hc as [-> _]. intros _.
    by repeat case_bool_decide.
  - unfold postQuestArchive.
    destruct (archiveQuest now q _ db) as [db1 [row|e]] eqn:Hc; [done|].
    apply archiveQuest_error in Hc as [-> _]. intros _.
    by repeat case_bool_decide.
  - unfold deleteQuestArchive.
    destruct (deleteArchivedQuest q db) as [db1 [row|e]] eqn:Hc; [done|].
    apply deleteArchivedQuest_error in Hc as [-> _]. intros _.
    by repeat case_bool_decide.
  - unfold postQuestUndo.
    destruct (undoQuestCompletion q db) as [db1 [row|e]] eqn:Hc; [done|].
    apply undoQuestCompletion_error in Hc as [-> _]. intros _.
    by repeat case_bool_decide.
Qed.

Lemma failed_request_changes_nothing_witness :
  status (response (postQuestComplete 5 "s" strayDb)) = 500 ∧
  db_after (postQuestComplete 5 "s" strayDb) = strayDb.
Proof.
  split; [reflexivity|].
  apply (proj1 (failed_request_changes_nothing 5 "s" None strayDb)).
  by vm_compute.
Defined.

(** X18. The archive routes never answer 404, and the archive route
    never answers 400: [POST .../archive] answers 200 when the quest has
    a progress row (completed or not) and 500 otherwise;
    [DELETE .../archive] answers 200 when the row is archived and 400
    'Quest is not archived' otherwise, also when there is no row or no
    such quest. *)
Theorem archive_routes_answers
    (now : Z) (q : string) (reason : option string) (db : Db) :
  (is_Some (questProgress db !! q) →
     status (response (postQuestArchive now q reason db)) = 200) ∧
  (questProgress db !! q = None →
     postQuestArchive now q reason db
       = (db, Failure 500 "Failed to archive quest")) ∧
  ((∃ r, questProgress db !! q = Some r ∧ isArchived r = true) →
     status (response (deleteQuestArchive q db)) = 200) ∧
  (¬ (∃ r, questProgress db !! q = Some r ∧ isArchived r = true) →
     deleteQuestArchive q db = (db, Failure 400 "Quest is not archived")).
Proof.
  split; [|split; [|split]].
  - intros [r Hr]. unfold postQuestArchive.
    by rewrite (archiveQuest_present now q _ r db Hr).
  - intros Hr. unfold postQuestArchive.
    by rewrite (archiveQuest_absent now q _ db Hr).
  - intros (r & Hr & Ha). unfold deleteQuestArchive.
    by rewrite (deleteArchivedQuest_archived q r db Hr Ha).
  - intros Hno. unfold deleteQuestArchive.
    rewrite deleteArchivedQuest_refused; [done|].
    destruct (questProgress db !! q) as [r|]; [|done]. cbn.
    destruct (isArchived r) eqn:Ha; [|done]. destruct Hno. by exists r.
Qed.

Lemma archive_routes_answers_witness :
  postQuestArchive 5 "nobody" None freshDb
    = (freshDb, Failure 500 "Failed to archive quest") ∧
  deleteQuestArchive "nobody" freshDb
    = (freshDb, Failure 400 "Quest is not archived") ∧
  status (response (postQuestArchive 6 "q" None
                      (calls [CallComplete 5 "q"] freshDb))) = 200.
Proof.
  split; [|split].
  - apply (proj1 (proj2 (archive_routes_answers 5 "nobody" None freshDb))).
    reflexivity.
  - apply (proj2 (proj2 (proj2 (archive_routes_answers 5 "nobody" None freshDb)))).
    intros (r & Hr & _). by vm_compute in Hr.
  - apply (proj1 (archive_routes_answers 6 "q" None
                    (calls [CallComplete 5 "q"] freshDb))).
    eexists. by vm_compute.
Defined.

(** X19. The answers of the cancel route: 404 for an unknown quest, 400
    for a known quest that is inactive; for a completed quest 200, unless
    the quest pays points to a target attribute and a profile row exists,
    where the UPDATE is rejected and the route answers 500.  The complete
    and undo routes answer 404 exactly for an unknown quest, and undo
    answers 400 exactly for a known inactive one. *)
Theorem ledger_routes_answers (now : Z) (q : string) (db : Db) :
  (status (response (postQuestCancel q db))
     = match quests db !! q, questProgress db !! q with
       | None, _ => 404
       | Some _, None => 400
       | Some quest, Some r =>
           if completed r then
             match profile db with
             | Some _ => if paysTarget quest then 500 else 200
             | None => 200
             end
           else 400
       end) ∧
  (status (response (postQuestComplete now q db)) = 404
     ↔ quests db !! q = None) ∧
  (status (response (postQuestUndo q db)) = 404 ↔ quests db !! q = None) ∧
  (status (response (postQuestUndo q db)) = 400
     ↔ is_Some (quests db !! q) ∧ inactive db q).
Proof.
  unfold response.
  split; [|split; [|split]].
  - unfold postQuestCancel.
    destruct (cancelQuestCompletion q db) as [db1 [res|e]] eqn:Hc.
    + apply cancelQuestCompletion_success in Hc
        as (quest & r & -> & -> & -> & _ & _ & _ & _ & Hp).
      destruct (profile db) as [p|]; [|done].
      destruct Hp as (u & Hu & _).
      destruct (paysTarget quest) eqn:Hpay; [|done].
      by rewrite cancellationUpdates_rejected in Hu.
    + apply cancelQuestCompletion_error in Hc
        as [-> [[-> ->]|[([quest ->] & Hin & ->)
                        |(quest & r & -> & -> & -> & -> & [p ->] & ->)]]];
        [done| |done].
      unfold inactive in Hin. destruct (questProgress db !! q); [|done].
      by rewrite Hin.
  - unfold postQuestComplete.
    destruct (completeQuest now q db) as [db1 [row|e]] eqn:Hc.
    + split; [done|]. intros Hq. revert Hc. unfold_store. by rewrite Hq.
    + apply completeQuest_error in Hc
        as [-> [[Hq ->]|([quest Hq] & a & ->)]]; [done|].
      destruct (message_invalid_target a) as [Hm _].
      rewrite bool_decide_eq_false_2 by done. rewrite Hq. done.
  - unfold postQuestUndo.
    destruct (undoQuestCompletion q db) as [db1 [res|e]] eqn:Hc.
    + apply undoQuestCompletion_success in Hc as (quest & r & -> & _). done.
    + apply undoQuestCompletion_error in Hc
        as [-> [[Hq ->]|[([quest Hq] & _ & ->)|([quest Hq] & _ & a & ->)]]];
        [done|by rewrite Hq|].
      destruct (message_invalid_target a) as [Hm Hm'].
      rewrite !bool_decide_eq_false_2 by done. by rewrite Hq.
  - unfold postQuestUndo.
    destruct (undoQuestCompletion q db) as [db1 [res|e]] eqn:Hc.
    + apply undoQuestCompletion_success in Hc
        as (quest & r & _ & Hr & Hd & _).
      split; [done|]. intros [_ Hin]. unfold inactive in Hin.
      rewrite Hr in Hin. congruence.
    + apply undoQuestCompletion_error in Hc
        as [-> [[Hq ->]|[(Hq & Hin & ->)|(Hq & Hin & a & ->)]]].
      * split; [done|]. rewrite Hq. by intros [[? ?] _].
      * done.
      * destruct (message_invalid_target a) as [Hm Hm'].
        rewrite !bool_decide_eq_false_2 by done. split; [done|]. by intros [_ ?].
Qed.

Lemma ledger_routes_answers_witness :
  status (response (postQuestCancel "nobody" freshDb)) = 404 ∧
  status (response (postQuestCancel "q" (calls [CallComplete 5 "q"] freshDb)))
    = 500 ∧
  status (response (postQuestCancel "r" (calls [CallComplete 5 "r"] freshDb)))
    = 200 ∧
  status (response (postQuestUndo "q" freshDb)) = 400.
Proof.
  split; [|split; [|split]].
  - by rewrite (proj1 (ledger_routes_answers 5 "nobody" freshDb)).
  - by rewrite (proj1 (ledger_routes_answers 5 "q"
                         (calls [CallComplete 5 "q"] freshDb))).
  - by rewrite (proj1 (ledger_routes_answers 5 "r"
                         (calls [CallComplete 5 "r"] freshDb))).
  - apply (proj2 (proj2 (proj2 (ledger_routes_answers 5 "q" freshDb)))).
    split; [by eexists|exact I].
Defined.

(** *** The quest list *)

(** X20. In every state the engine calls reach from an empty progress
    table, the status dot of a quest is green when the quest is
    completed and muted otherwise; the pulsing dot for a quest with
    progress but no completion never shows. *)
Theorem dot_never_pulses (cs : list Call) (q : string) (db : Db) :
  questProgress db = ∅ →
  questDot (questProgress (calls cs db) !! q) ≠ DotPulse ∧
  (questDot (questProgress (calls cs db) !! q) = DotMuted
     ↔ inactive (calls cs db) q).
Proof.
  intros Hempty.
  assert (Hrest : restingRows (questProgress (calls cs db))).
  { apply calls_restingRows. rewrite Hempty. intros k r. by rewrite lookup_empty. }
  unfold questDot, inactive.
  destruct (questProgress (calls cs db) !! q) as [r|] eqn:Hr; cbn; [|done].
  destruct (completed r) eqn:Hc; [done|].
  by rewrite (Hrest q r Hr Hc).
Qed.

Lemma dot_never_pulses_witness :
  questDot (questProgress (calls [CallComplete 5 "r"; CallCancel "r"] freshDb)
              !! "r") = DotMuted.
Proof.
  apply (proj2 (dot_never_pulses [CallComplete 5 "r"; CallCancel "r"] "r"
                  freshDb eq_refl)).
  by vm_compute.
Defined.

(** *** Undo and the current XP *)

(** X21. Undo gives no current XP back, so a quest that is completed,
    undone and completed again has paid its XP into [xp] twice while
    [cumulativeXp] counts it once: after Complete, Undo, Complete on an
    inactive quest, [xp] has grown by twice the reward and
    [cumulativeXp] by one reward. *)
Theorem complete_undo_complete
    (t1 t2 : Z) (q : string) (quest : Quest) (p : Profile) (db : Db) :
  quests db !! q = Some quest →
  profile db = Some p →
  inactive db q →
  (∀ a, targetOf quest = Some a → allowed a = true) →
  0 ≤ cumulativeXp p →
  let db3 := calls [CallComplete t1 q; CallUndo q; CallComplete t2 q] db in
  column xp db3 = Some (xp p + 2 * xpOf quest) ∧
  column level db3 = Some (levelForXp (xp p + 2 * xpOf quest)) ∧
  column cumulativeXp db3 = Some (cumulativeXp p + xpOf quest).
Proof.
  intros Hq Hp Hin Hal Hcum db3. unfold db3, calls, call. cbn [foldl].
  unfold state_after, column.
  destruct (complete_undo_steps t1 q quest p db Hq Hp Hin Hal)
    as (u & u' & db1 & db2 & Hu & Hc & Hp1 & Hu' & Hx & Hp2).
  rewrite Hc. cbn [fst]. rewrite Hx. cbn [fst].
  destruct (undoQuestCompletion_success _ _ _ _ Hx)
    as (quest' & r & Hq1 & _ & _ & _ & Hq2 & _ & Hr2).
  assert (Hin2 : inactive db2 q).
  { unfold inactive. by rewrite Hr2, lookup_insert_eq. }
  assert (Hquests : quests db2 !! q = Some quest).
  { rewrite Hq2.
    destruct (complete_step t1 q quest p db Hq Hp Hin Hal)
      as (u0 & db1' & _ & Hc' & _ & Hqs & _).
    rewrite Hc in Hc'. injection Hc' as <-. by rewrite Hqs. }
  destruct (complete_step t2 q quest _ db2 Hquests Hp2 Hin2 Hal)
    as (u3 & db3' & Hu3 & Hc3 & Hp3 & _).
  rewrite Hc3. cbn [fst]. rewrite Hp3.
  cbn [fmap option_fmap option_map].
  destruct (completionUpdates_effect _ _ _ Hu) as (Hx1 & _ & Hc1 & _).
  destruct (undoUpdates_effect _ _ _ Hu') as (Hx2 & _ & Hc2 & _).
  destruct (completionUpdates_effect _ _ _ Hu3) as (Hx3 & Hl3 & Hc3' & _).
  rewrite Hx3, Hl3, Hc3', Hx2, Hc2, Hx1, Hc1.
  repeat split; f_equal; try lia. f_equal. lia.
Qed.

Lemma complete_undo_complete_witness :
  column xp (calls [CallComplete 5 "q"; CallUndo "q"; CallComplete 6 "q"] freshDb)
    = Some 200 ∧
  column cumulativeXp
    (calls [CallComplete 5 "q"; CallUndo "q"; CallComplete 6 "q"] freshDb)
    = Some 100.
Proof.
  destruct (complete_undo_complete 5 6 "q" mentalQuest defaultProfile freshDb
              eq_refl eq_refl I ltac:(by intros a [= <-]) ltac:(by vm_compute))
    as (Hx & _ & Hc).
  split; [exact Hx|exact Hc].
Defined.
